(** * The goroutine scheduler of [runtime/proc.go]: run queues, wake-up
      rule, dispatch loop, syscall exit and stop-the-world.

    The development embeds the scheduler's functions as Rocq functions over
    explicit state.  Machine integers are [Z] with their wrap-around written
    out, the per-P ring is a list of 256 slots updated by index, nullable
    runtime pointers ([guintptr], [muintptr]) are addresses in [Z] with [0]
    for nil, and the intrusive lists threaded through [schedlink] and [link]
    (global run queue, idle Ms, idle Ps) are lists with the head first. *)

From Stdlib Require Import ZArith Lia String Bool Znumtheory.
From stdpp Require Import base list gmap.

Local Open Scope Z_scope.

(** ** Machine integers *)

(** [uint32] arithmetic wraps modulo 2^32. *)
Definition uint32 (z : Z) : Z := z mod 4294967296.

(** [int32] arithmetic wraps into [-2^31, 2^31). *)
Definition int32 (z : Z) : Z := (z + 2147483648) mod 4294967296 - 2147483648.

(** ** Outcomes

    [Throw msg] is a call of the runtime's [throw]; [Hang] is a thread that
    never proceeds: a spin or retry loop that ran out of fuel, or [lock] on a
    mutex that is already held. *)
Inductive result (A : Type) : Type :=
| Ok (a : A)
| Throw (msg : string)
| Hang.
Arguments Ok {A} a.
Arguments Throw {A} msg.
Arguments Hang {A}.

Global Instance result_ret : MRet result := fun A a => Ok a.
Global Instance result_bind : MBind result := fun A B k r =>
  match r with
  | Ok a => k a
  | Throw msg => Throw msg
  | Hang => Hang
  end.

(** [atomic.Cas(&cell, old, new)] on a cell holding [cur]: the success flag
    and the cell afterwards. *)
Definition cas (cur old new : Z) : bool * Z :=
  if cur =? old then (true, new) else (false, cur).

(** ** Data model *)

Abbreviation guintptr := Z (only parsing).
Abbreviation muintptr := Z (only parsing).

(** Status of a P ([_Pidle] ... [_Pdead]). *)
Inductive pstatus : Type := Pidle | Prunning | Psyscall | Pgcstop | Pdead.

Global Instance pstatus_eq_dec : EqDecision pstatus.
Proof. solve_decision. Defined.

(** The fields of [p] the scheduler core reads and writes.  [p_m] is the
    owning M (0 for none). *)
Record p : Type := mkP {
  p_status : pstatus;
  p_m : muintptr;
  schedtick : Z;
  syscalltick : Z;
  runqhead : Z;
  runqtail : Z;
  runq : list guintptr;
  runnext : guintptr
}.

Definition set_p_status (v : pstatus) (x : p) : p :=
  mkP v (p_m x) (schedtick x) (syscalltick x) (runqhead x) (runqtail x) (runq x) (runnext x).
Definition set_p_m (v : muintptr) (x : p) : p :=
  mkP (p_status x) v (schedtick x) (syscalltick x) (runqhead x) (runqtail x) (runq x) (runnext x).
Definition set_schedtick (v : Z) (x : p) : p :=
  mkP (p_status x) (p_m x) v (syscalltick x) (runqhead x) (runqtail x) (runq x) (runnext x).
Definition set_syscalltick (v : Z) (x : p) : p :=
  mkP (p_status x) (p_m x) (schedtick x) v (runqhead x) (runqtail x) (runq x) (runnext x).
Definition set_runqhead (v : Z) (x : p) : p :=
  mkP (p_status x) (p_m x) (schedtick x) (syscalltick x) v (runqtail x) (runq x) (runnext x).
Definition set_runqtail (v : Z) (x : p) : p :=
  mkP (p_status x) (p_m x) (schedtick x) (syscalltick x) (runqhead x) v (runq x) (runnext x).
Definition set_runq (v : list guintptr) (x : p) : p :=
  mkP (p_status x) (p_m x) (schedtick x) (syscalltick x) (runqhead x) (runqtail x) v (runnext x).
Definition set_runnext (v : guintptr) (x : p) : p :=
  mkP (p_status x) (p_m x) (schedtick x) (syscalltick x) (runqhead x) (runqtail x) (runq x) v.

Global Instance p_inhabited : Inhabited p :=
  populate (mkP Pidle 0 0 0 0 0 (replicate 256 0) 0).

(** [len(_p_.runq)]: the ring has 256 slots. *)
Definition runq_len : Z := 256.

(** [q[i % len(q)]] and [q[i % len(q)] = g], for a [uint32] index [i]. *)
Definition slot (q : list guintptr) (i : Z) : guintptr :=
  default 0 (q !! Z.to_nat (i mod runq_len)).
Definition slot_set (q : list guintptr) (i : Z) (g : guintptr) : list guintptr :=
  <[Z.to_nat (i mod runq_len) := g]> q.

(** The global scheduler state [sched].  [lock_held] is [sched.lock];
    [grunq] is the chain from [runqhead] to [runqtail], [midle] and [pidle]
    the idle lists (Ms by address, Ps by index in [allp]). *)
Record schedt : Type := mkSched {
  lock_held : bool;
  midle : list muintptr;
  nmidle : Z;
  nmidlelocked : Z;
  nmsys : Z;
  mnext : Z;
  maxmcount : Z;
  nmfreed : Z;
  pidle : list nat;
  npidle : Z;
  nmspinning : Z;
  grunq : list guintptr;
  runqsize : Z;
  gcwaiting : Z;
  stopwait : Z;
  stopnote : bool;
  sysmonwait : Z;
  sysmonnote : bool
}.

Definition set_lock_held (v : bool) (s : schedt) : schedt :=
  mkSched v (midle s) (nmidle s) (nmidlelocked s) (nmsys s) (mnext s) (maxmcount s)
    (nmfreed s) (pidle s) (npidle s) (nmspinning s) (grunq s) (runqsize s) (gcwaiting s)
    (stopwait s) (stopnote s) (sysmonwait s) (sysmonnote s).
Definition set_nmidlelocked (v : Z) (s : schedt) : schedt :=
  mkSched (lock_held s) (midle s) (nmidle s) v (nmsys s) (mnext s) (maxmcount s)
    (nmfreed s) (pidle s) (npidle s) (nmspinning s) (grunq s) (runqsize s) (gcwaiting s)
    (stopwait s) (stopnote s) (sysmonwait s) (sysmonnote s).
Definition set_mnext (v : Z) (s : schedt) : schedt :=
  mkSched (lock_held s) (midle s) (nmidle s) (nmidlelocked s) (nmsys s) v (maxmcount s)
    (nmfreed s) (pidle s) (npidle s) (nmspinning s) (grunq s) (runqsize s) (gcwaiting s)
    (stopwait s) (stopnote s) (sysmonwait s) (sysmonnote s).
Definition set_pidle (v : list nat) (s : schedt) : schedt :=
  mkSched (lock_held s) (midle s) (nmidle s) (nmidlelocked s) (nmsys s) (mnext s)
    (maxmcount s) (nmfreed s) v (npidle s) (nmspinning s) (grunq s) (runqsize s)
    (gcwaiting s) (stopwait s) (stopnote s) (sysmonwait s) (sysmonnote s).
Definition set_npidle (v : Z) (s : schedt) : schedt :=
  mkSched (lock_held s) (midle s) (nmidle s) (nmidlelocked s) (nmsys s) (mnext s)
    (maxmcount s) (nmfreed s) (pidle s) v (nmspinning s) (grunq s) (runqsize s)
    (gcwaiting s) (stopwait s) (stopnote s) (sysmonwait s) (sysmonnote s).
Definition set_nmspinning (v : Z) (s : schedt) : schedt :=
  mkSched (lock_held s) (midle s) (nmidle s) (nmidlelocked s) (nmsys s) (mnext s)
    (maxmcount s) (nmfreed s) (pidle s) (npidle s) v (grunq s) (runqsize s)
    (gcwaiting s) (stopwait s) (stopnote s) (sysmonwait s) (sysmonnote s).
Definition set_gcwaiting (v : Z) (s : schedt) : schedt :=
  mkSched (lock_held s) (midle s) (nmidle s) (nmidlelocked s) (nmsys s) (mnext s)
    (maxmcount s) (nmfreed s) (pidle s) (npidle s) (nmspinning s) (grunq s) (runqsize s)
    v (stopwait s) (stopnote s) (sysmonwait s) (sysmonnote s).
Definition set_stopwait (v : Z) (s : schedt) : schedt :=
  mkSched (lock_held s) (midle s) (nmidle s) (nmidlelocked s) (nmsys s) (mnext s)
    (maxmcount s) (nmfreed s) (pidle s) (npidle s) (nmspinning s) (grunq s) (runqsize s)
    (gcwaiting s) v (stopnote s) (sysmonwait s) (sysmonnote s).
Definition set_stopnote (v : bool) (s : schedt) : schedt :=
  mkSched (lock_held s) (midle s) (nmidle s) (nmidlelocked s) (nmsys s) (mnext s)
    (maxmcount s) (nmfreed s) (pidle s) (npidle s) (nmspinning s) (grunq s) (runqsize s)
    (gcwaiting s) (stopwait s) v (sysmonwait s) (sysmonnote s).
Definition set_midle (v : list muintptr) (n : Z) (s : schedt) : schedt :=
  mkSched (lock_held s) v n (nmidlelocked s) (nmsys s) (mnext s) (maxmcount s)
    (nmfreed s) (pidle s) (npidle s) (nmspinning s) (grunq s) (runqsize s) (gcwaiting s)
    (stopwait s) (stopnote s) (sysmonwait s) (sysmonnote s).
Definition set_grunq (v : list guintptr) (n : Z) (s : schedt) : schedt :=
  mkSched (lock_held s) (midle s) (nmidle s) (nmidlelocked s) (nmsys s) (mnext s)
    (maxmcount s) (nmfreed s) (pidle s) (npidle s) (nmspinning s) v n (gcwaiting s)
    (stopwait s) (stopnote s) (sysmonwait s) (sysmonnote s).
Definition set_sysmon (w : Z) (n : bool) (s : schedt) : schedt :=
  mkSched (lock_held s) (midle s) (nmidle s) (nmidlelocked s) (nmsys s) (mnext s)
    (maxmcount s) (nmfreed s) (pidle s) (npidle s) (nmspinning s) (grunq s) (runqsize s)
    (gcwaiting s) (stopwait s) (stopnote s) w n.

(** [lock(&sched.lock)] and [unlock(&sched.lock)].  The mutex is not
    reentrant: locking it while it is held never returns. *)
Definition lock (s : schedt) : result schedt :=
  if lock_held s then Hang else Ok (set_lock_held true s).
Definition unlock (s : schedt) : result schedt :=
  Ok (set_lock_held false s).

(** ** Global run queue *)

(** [globrunqput]: append [gp] to the chain. *)
Definition globrunqput (gp : guintptr) (s : schedt) : schedt :=
  set_grunq (grunq s ++ [gp]) (int32 (runqsize s + 1)) s.

(** [globrunqputbatch(ghead, gtail, n)]: append an already linked chain,
    given here as the list of its tasks from [ghead] to [gtail]. *)
Definition globrunqputbatch (batch : list guintptr) (n : Z) (s : schedt) : schedt :=
  set_grunq (grunq s ++ batch) (int32 (runqsize s + n)) s.

(** ** Local run queue *)

Section RunQueue.

(** [randomizeScheduler = raceenabled] comes from the build; [fastrand] and
    [fastrandn] are the draws of the runtime's random source, used only when
    it is set. *)
Variable raceenabled : bool.
Variable fastrand : Z.
Variable fastrandn : Z -> Z.

Definition randomizeScheduler : bool := raceenabled.

(** The batch read by [runqputslow] and [runqgrab]: slots [h], [h+1], ...,
    [h+n-1] of the ring. *)
Definition ring_slice (q : list guintptr) (h : Z) (n : nat) : list guintptr :=
  map (fun i : nat => slot q (uint32 (h + Z.of_nat i))) (seq 0 n).

(** The race-detector shuffle of [runqputslow]:
    [for i := 1; i <= n; i++ { j := fastrandn(i+1); swap batch[i], batch[j] }]. *)
Fixpoint shuffle_from (i : nat) (cnt : nat) (batch : list guintptr) : list guintptr :=
  match cnt with
  | O => batch
  | S cnt' =>
      let j := Z.to_nat (fastrandn (uint32 (Z.of_nat i + 1))) in
      let bi := default 0 (batch !! i) in
      let bj := default 0 (batch !! j) in
      shuffle_from (S i) cnt' (<[j := bi]> (<[i := bj]> batch))
  end.

(** [runqputslow(_p_, gp, h, t)]: move half of the ring and [gp] to the
    global queue.  The flag is [false] when the CAS on [runqhead] fails. *)
Definition runqputslow (_p_ : p) (s : schedt) (gp : guintptr) (h t : Z)
  : result (bool * p * schedt) :=
  let n := uint32 (t - h) in
  let n := n / 2 in
  if negb (n =? runq_len / 2) then Throw "runqputslow: queue is not full"
  else
    let batch := ring_slice (runq _p_) h (Z.to_nat n) in
    let '(ok, head') := cas (runqhead _p_) h (uint32 (h + n)) in
    if negb ok then Ok (false, _p_, s)
    else
      let _p_ := set_runqhead head' _p_ in
      let batch := batch ++ [gp] in
      let batch := if randomizeScheduler
                   then shuffle_from 1 (Z.to_nat n) batch else batch in
      s ← lock s;
      s ← unlock (globrunqputbatch batch (int32 (n + 1)) s);
      Ok (true, _p_, s).

(** The [retry:] loop of [runqput]. *)
Fixpoint runqput_retry (fuel : nat) (_p_ : p) (s : schedt) (gp : guintptr)
  : result (p * schedt) :=
  match fuel with
  | O => Hang
  | S fuel' =>
      let h := runqhead _p_ in
      let t := runqtail _p_ in
      if uint32 (t - h) <? runq_len then
        Ok (set_runqtail (uint32 (t + 1)) (set_runq (slot_set (runq _p_) t gp) _p_), s)
      else
        '(done, _p_, s) ← runqputslow _p_ s gp h t;
        if done : bool then Ok (_p_, s) else runqput_retry fuel' _p_ s gp
  end.

(** The [retryNext:] loop of [runqput]: exchange the [runnext] slot. *)
Fixpoint runqput_next (fuel : nat) (_p_ : p) (gp : guintptr) : result (guintptr * p) :=
  match fuel with
  | O => Hang
  | S fuel' =>
      let oldnext := runnext _p_ in
      let '(ok, v) := cas (runnext _p_) oldnext gp in
      if ok then Ok (oldnext, set_runnext v _p_) else runqput_next fuel' _p_ gp
  end.

(** [runqput(_p_, gp, next)]. *)
Definition runqput (fuel : nat) (_p_ : p) (s : schedt) (gp : guintptr) (next : bool)
  : result (p * schedt) :=
  let next := if randomizeScheduler && next && (fastrand mod 2 =? 0)
              then false else next in
  if next then
    '(oldnext, _p_) ← runqput_next fuel _p_ gp;
    if oldnext =? 0 then Ok (_p_, s)
    else runqput_retry fuel _p_ s oldnext
  else runqput_retry fuel _p_ s gp.

(** The second loop of [runqget]: take from the ring's head. *)
Fixpoint runqget_ring (fuel : nat) (_p_ : p) : result (guintptr * bool * p) :=
  match fuel with
  | O => Hang
  | S fuel' =>
      let h := runqhead _p_ in
      let t := runqtail _p_ in
      if t =? h then Ok (0, false, _p_)
      else
        let gp := slot (runq _p_) h in
        let '(ok, head') := cas (runqhead _p_) h (uint32 (h + 1)) in
        if ok then Ok (gp, false, set_runqhead head' _p_)
        else runqget_ring fuel' _p_
  end.

(** [runqget(_p_)]: the pair [(gp, inheritTime)] and the P afterwards; the
    first loop takes [runnext]. *)
Fixpoint runqget_next (fuel fuel_ring : nat) (_p_ : p) : result (guintptr * bool * p) :=
  match fuel with
  | O => Hang
  | S fuel' =>
      let next := runnext _p_ in
      if next =? 0 then runqget_ring fuel_ring _p_
      else
        let '(ok, v) := cas (runnext _p_) next 0 in
        if ok then Ok (next, true, set_runnext v _p_)
        else runqget_next fuel' fuel_ring _p_
  end.

Definition runqget (fuel : nat) (_p_ : p) : result (guintptr * bool * p) :=
  runqget_next fuel fuel _p_.

(** [runqempty(_p_)]. *)
Definition runqempty (_p_ : p) : bool :=
  (runqhead _p_ =? runqtail _p_) && (runnext _p_ =? 0).

(** The transfer loop of [globrunqget]: [n] more tasks leave the head of
    the global queue and are put on the local ring. *)
Fixpoint globrunqget_loop (fuel : nat) (n : nat) (_p_ : p) (s : schedt)
  : result (p * schedt) :=
  match n with
  | O => Ok (_p_, s)
  | S n' =>
      match grunq s with
      | [] => Throw "nil pointer dereference"
      | gp1 :: rest =>
          '(_p_, s) ← runqput fuel _p_ (set_grunq rest (runqsize s) s) gp1 false;
          globrunqget_loop fuel n' _p_ s
      end
  end.

(** The number of tasks [globrunqget] takes from a queue of [size] tasks. *)
Definition globrunqget_n (size gomaxprocs max : Z) : Z :=
  let n := int32 (size ÷ gomaxprocs + 1) in
  let n := if n >? size then size else n in
  let n := if (max >? 0) && (n >? max) then max else n in
  if n >? runq_len / 2 then runq_len / 2 else n.

(** [globrunqget(_p_, max)], for the value [gomaxprocs] of the global of
    that name.  The result is the returned task (0 for nil). *)
Definition globrunqget (fuel : nat) (gomaxprocs : Z) (_p_ : p) (s : schedt) (max : Z)
  : result (guintptr * p * schedt) :=
  if runqsize s =? 0 then Ok (0, _p_, s)
  else if gomaxprocs =? 0 then Throw "integer divide by zero"
  else
    let n := globrunqget_n (runqsize s) gomaxprocs max in
    let s := set_grunq (grunq s) (int32 (runqsize s - n)) s in
    match grunq s with
    | [] => Throw "nil pointer dereference"
    | gp :: rest =>
        let s := set_grunq rest (runqsize s) s in
        let n := int32 (n - 1) in
        '(_p_, s) ← globrunqget_loop fuel (Z.to_nat n) _p_ s;
        Ok (gp, _p_, s)
    end.

(** The batch size as the specification words it: [size / context_count + 1],
    capped at [max] when [max] is positive and at half the ring. *)
Definition batch_size_stated (size context_count max : Z) : Z :=
  Z.min (if max >? 0 then Z.min (size / context_count + 1) max
         else size / context_count + 1) 128.

(** *** Stealing

    [runqgrab] and [runqsteal] work on two Ps at once, and [batch] points
    into the thief's own ring, so they are given the array [allp] and the
    indices of the two Ps. *)

(** One pass of the loop of [runqgrab]: either [continue] or [return n],
    each with the Ps as the pass leaves them. *)
Inductive grab : Type :=
| GrabRetry (ps : list p)
| GrabDone (n : Z) (ps : list p).

(** [for i := 0; i < n; i++ { batch[(batchHead+i)%len] = _p_.runq[(h+i)%len] }],
    from [i] on, [cnt] iterations. *)
Fixpoint grab_copy (ps : list p) (v b : nat) (h batchHead : Z) (i cnt : nat) : list p :=
  match cnt with
  | O => ps
  | S cnt' =>
      let g := slot (runq (ps !!! v)) (uint32 (h + Z.of_nat i)) in
      let ps := alter (fun x =>
                  set_runq (slot_set (runq x) (uint32 (batchHead + Z.of_nat i)) g) x) b ps in
      grab_copy ps v b h batchHead (S i) cnt'
  end.

(** [h] and [t] are the values the two atomic loads of the pass returned;
    [v] is the victim [_p_], [b] the P whose ring is [batch].  The sleep
    before [runnext] is taken changes no scheduler state. *)
Definition runqgrab_step (h t : Z) (ps : list p) (v b : nat) (batchHead : Z)
    (stealRunNextG : bool) : grab :=
  let n := uint32 (t - h) in
  let n := uint32 (n - n / 2) in
  if n =? 0 then
    if stealRunNextG then
      let next := runnext (ps !!! v) in
      if negb (next =? 0) then
        let '(ok, v') := cas (runnext (ps !!! v)) next 0 in
        if negb ok then GrabRetry ps
        else
          let ps := alter (set_runnext v') v ps in
          GrabDone 1 (alter (fun x => set_runq (slot_set (runq x) batchHead next) x) b ps)
      else GrabDone 0 ps
    else GrabDone 0 ps
  else if n >? runq_len / 2 then GrabRetry ps
  else
    let ps := grab_copy ps v b h batchHead 0 (Z.to_nat n) in
    let '(ok, head') := cas (runqhead (ps !!! v)) h (uint32 (h + n)) in
    if ok then GrabDone n (alter (set_runqhead head') v ps) else GrabRetry ps.

(** [runqgrab(_p_, batch, batchHead, stealRunNextG)] run on its own: every
    pass loads the victim's current [runqhead] and [runqtail]. *)
Fixpoint runqgrab (fuel : nat) (ps : list p) (v b : nat) (batchHead : Z)
    (stealRunNextG : bool) : result (Z * list p) :=
  match fuel with
  | O => Hang
  | S fuel' =>
      match runqgrab_step (runqhead (ps !!! v)) (runqtail (ps !!! v)) ps v b
              batchHead stealRunNextG with
      | GrabRetry ps' => runqgrab fuel' ps' v b batchHead stealRunNextG
      | GrabDone n ps' => Ok (n, ps')
      end
  end.

(** [runqsteal(_p_, p2, stealRunNextG)]: [self] is the thief [_p_]. *)
Definition runqsteal (fuel : nat) (ps : list p) (self p2 : nat) (stealRunNextG : bool)
  : result (guintptr * list p) :=
  let t := runqtail (ps !!! self) in
  '(n, ps) ← runqgrab fuel ps p2 self t stealRunNextG;
  if n =? 0 then Ok (0, ps)
  else
    let n := uint32 (n - 1) in
    let gp := slot (runq (ps !!! self)) (uint32 (t + n)) in
    if n =? 0 then Ok (gp, ps)
    else
      let h := runqhead (ps !!! self) in
      if uint32 (uint32 (t - h) + n) >=? runq_len then Throw "runqsteal: runq overflow"
      else Ok (gp, alter (set_runqtail (uint32 (t + n))) self ps).

End RunQueue.

(** ** Tasks, workers and the whole scheduler *)

(** Status of a G without the scan bit ([_Gidle] ... [_Gcopystack]); the
    [_Gscan] bit is the field [gscan]. *)
Inductive gstatus : Type :=
  Gidle | Grunnable | Grunning | Gsyscall | Gwaiting | Gdead | Gcopystack.

Global Instance gstatus_eq_dec : EqDecision gstatus.
Proof. solve_decision. Defined.

(** [stackguard0] is either the real guard [stack.lo + _StackGuard] or the
    sentinel [stackPreempt]. *)
Inductive sguard : Type := StackGuardReal | StackPreempt.

(** Start functions given to [newm]. *)
Inductive mfn : Type := Fn_mspinning | Fn_other.

(** The fields of [g] the scheduler core uses; [g_system] is
    [isSystemGoroutine]. *)
Record g : Type := mkG {
  atomicstatus : gstatus;
  gscan : bool;
  g_m : muintptr;
  lockedm : muintptr;
  preempt : bool;
  stackguard0 : sguard;
  g_system : bool;
  gcscanvalid : bool
}.

Definition set_atomicstatus (v : gstatus) (x : g) : g :=
  mkG v (gscan x) (g_m x) (lockedm x) (preempt x) (stackguard0 x) (g_system x)
    (gcscanvalid x).
Definition set_g_m (v : muintptr) (x : g) : g :=
  mkG (atomicstatus x) (gscan x) v (lockedm x) (preempt x) (stackguard0 x) (g_system x)
    (gcscanvalid x).
Definition set_preempt (v : bool) (x : g) : g :=
  mkG (atomicstatus x) (gscan x) (g_m x) (lockedm x) v (stackguard0 x) (g_system x)
    (gcscanvalid x).
Definition set_stackguard0 (v : sguard) (x : g) : g :=
  mkG (atomicstatus x) (gscan x) (g_m x) (lockedm x) (preempt x) v (g_system x)
    (gcscanvalid x).

Definition set_gcscanvalid (v : bool) (x : g) : g :=
  mkG (atomicstatus x) (gscan x) (g_m x) (lockedm x) (preempt x) (stackguard0 x)
    (g_system x) v.

Global Instance g_inhabited : Inhabited g :=
  populate (mkG Gidle false 0 0 false StackGuardReal false false).

(** The fields of [m] the scheduler core uses.  [m_p] and [nextp] are
    indices in [allp]; [mcache] tells whether [m.mcache] is non-nil and
    [park] whether the note [m.park] has been signalled. *)
Record m : Type := mkM {
  m_p : option nat;
  nextp : option nat;
  mcache : bool;
  spinning : bool;
  mstartfn : option mfn;
  park : bool;
  locks : Z;
  curg : guintptr;
  m_g0 : guintptr;
  lockedg : guintptr;
  lockedExt : Z;
  incgo : bool;
  m_syscalltick : Z
}.

Definition set_m_p (v : option nat) (x : m) : m :=
  mkM v (nextp x) (mcache x) (spinning x) (mstartfn x) (park x) (locks x) (curg x)
    (m_g0 x) (lockedg x) (lockedExt x) (incgo x) (m_syscalltick x).
Definition set_nextp (v : option nat) (x : m) : m :=
  mkM (m_p x) v (mcache x) (spinning x) (mstartfn x) (park x) (locks x) (curg x)
    (m_g0 x) (lockedg x) (lockedExt x) (incgo x) (m_syscalltick x).
Definition set_mcache (v : bool) (x : m) : m :=
  mkM (m_p x) (nextp x) v (spinning x) (mstartfn x) (park x) (locks x) (curg x) (m_g0 x)
    (lockedg x) (lockedExt x) (incgo x) (m_syscalltick x).
Definition set_spinning (v : bool) (x : m) : m :=
  mkM (m_p x) (nextp x) (mcache x) v (mstartfn x) (park x) (locks x) (curg x) (m_g0 x)
    (lockedg x) (lockedExt x) (incgo x) (m_syscalltick x).
Definition set_park (v : bool) (x : m) : m :=
  mkM (m_p x) (nextp x) (mcache x) (spinning x) (mstartfn x) v (locks x) (curg x)
    (m_g0 x) (lockedg x) (lockedExt x) (incgo x) (m_syscalltick x).
Definition set_locks (v : Z) (x : m) : m :=
  mkM (m_p x) (nextp x) (mcache x) (spinning x) (mstartfn x) (park x) v (curg x)
    (m_g0 x) (lockedg x) (lockedExt x) (incgo x) (m_syscalltick x).
Definition set_curg (v : guintptr) (x : m) : m :=
  mkM (m_p x) (nextp x) (mcache x) (spinning x) (mstartfn x) (park x) (locks x) v
    (m_g0 x) (lockedg x) (lockedExt x) (incgo x) (m_syscalltick x).

Global Instance m_inhabited : Inhabited m :=
  populate (mkM None None false false None false 0 0 0 0 0 false 0).

(** The scheduler as a whole: [sched], [allp], the Ms and Gs by address,
    and the globals the core reads.  [newmHandoff] is the list of Ms waiting
    for the template thread, [osthreads] the Ms given to [newosproc]. *)
Record world : Type := mkWorld {
  sched : schedt;
  allp : list p;
  allm : gmap Z m;
  allgs : gmap Z g;
  gomaxprocs : Z;
  haveTemplateThread : Z;
  newmHandoff : list muintptr;
  osthreads : list muintptr;
  islibrary : bool;
  isarchive : bool;
  panicking : Z;
  freezing : Z
}.

Definition set_sched (v : schedt) (w : world) : world :=
  mkWorld v (allp w) (allm w) (allgs w) (gomaxprocs w) (haveTemplateThread w)
    (newmHandoff w) (osthreads w) (islibrary w) (isarchive w) (panicking w) (freezing w).
Definition set_allp (v : list p) (w : world) : world :=
  mkWorld (sched w) v (allm w) (allgs w) (gomaxprocs w) (haveTemplateThread w)
    (newmHandoff w) (osthreads w) (islibrary w) (isarchive w) (panicking w) (freezing w).
Definition set_allm (v : gmap Z m) (w : world) : world :=
  mkWorld (sched w) (allp w) v (allgs w) (gomaxprocs w) (haveTemplateThread w)
    (newmHandoff w) (osthreads w) (islibrary w) (isarchive w) (panicking w) (freezing w).
Definition set_allgs (v : gmap Z g) (w : world) : world :=
  mkWorld (sched w) (allp w) (allm w) v (gomaxprocs w) (haveTemplateThread w)
    (newmHandoff w) (osthreads w) (islibrary w) (isarchive w) (panicking w) (freezing w).
Definition set_newmHandoff (v : list muintptr) (w : world) : world :=
  mkWorld (sched w) (allp w) (allm w) (allgs w) (gomaxprocs w) (haveTemplateThread w) v
    (osthreads w) (islibrary w) (isarchive w) (panicking w) (freezing w).
Definition set_osthreads (v : list muintptr) (w : world) : world :=
  mkWorld (sched w) (allp w) (allm w) (allgs w) (gomaxprocs w) (haveTemplateThread w)
    (newmHandoff w) v (islibrary w) (isarchive w) (panicking w) (freezing w).

Definition upd_sched (f : schedt -> schedt) (w : world) : world :=
  set_sched (f (sched w)) w.
Definition the_p (w : world) (i : nat) : p := allp w !!! i.
Definition upd_p (i : nat) (f : p -> p) (w : world) : world :=
  set_allp (alter f i (allp w)) w.
Definition the_m (w : world) (mp : muintptr) : m := allm w !!! mp.
Definition upd_m (mp : muintptr) (f : m -> m) (w : world) : world :=
  set_allm (alter f mp (allm w)) w.
Definition the_g (w : world) (gp : guintptr) : g := allgs w !!! gp.
Definition upd_g (gp : guintptr) (f : g -> g) (w : world) : world :=
  set_allgs (alter f gp (allgs w)) w.

(** [lock(&sched.lock)] and [unlock(&sched.lock)] on the whole state. *)
Definition wlock (w : world) : result world :=
  s ← lock (sched w); Ok (set_sched s w).
Definition wunlock (w : world) : result world :=
  s ← unlock (sched w); Ok (set_sched s w).

(** [int64] arithmetic wraps into [-2^63, 2^63). *)
Definition int64 (z : Z) : Z :=
  (z + 9223372036854775808) mod 18446744073709551616 - 9223372036854775808.

(** *** Status of a G *)

(** [readgstatus(gp)]: the status and the scan bit. *)
Definition readgstatus (w : world) (gp : guintptr) : gstatus * bool :=
  (atomicstatus (the_g w gp), gscan (the_g w gp)).

(** The CAS loop of [casgstatus]: it waits while the status still differs
    from [oldval], for example while the scan bit is set. *)
Fixpoint casgstatus_loop (fuel : nat) (w : world) (gp : guintptr)
    (oldval newval : gstatus) : result world :=
  match fuel with
  | O => Hang
  | S fuel' =>
      let cur := the_g w gp in
      if decide (atomicstatus cur = oldval /\ gscan cur = false)
      then Ok (upd_g gp (set_atomicstatus newval) w)
      else if decide (oldval = Gwaiting /\ atomicstatus cur = Grunnable /\ gscan cur = false)
      then Throw "casgstatus: waiting for Gwaiting but is Grunnable"
      else casgstatus_loop fuel' w gp oldval newval
  end.

(** [casgstatus(gp, oldval, newval)], for statuses without the scan bit. *)
Definition casgstatus (fuel : nat) (w : world) (gp : guintptr)
    (oldval newval : gstatus) : result world :=
  if decide (oldval = newval) then Throw "casgstatus: bad incoming values"
  else if bool_decide (oldval = Grunning) && gcscanvalid (the_g w gp)
  then Throw "casgstatus"
  else
    w ← casgstatus_loop fuel w gp oldval newval;
    if decide (newval = Grunning) then Ok (upd_g gp (set_gcscanvalid false) w)
    else Ok w.

(** *** Idle lists and counts *)

(** [pidleget()] and [pidleput(_p_)]; the scheduler lock is held. *)
Definition pidleget (w : world) : option nat * world :=
  match pidle (sched w) with
  | [] => (None, w)
  | i :: rest =>
      (Some i,
       upd_sched (fun s => set_npidle (uint32 (npidle s - 1)) (set_pidle rest s)) w)
  end.

Definition pidleput (w : world) (i : nat) : result world :=
  if negb (runqempty (the_p w i)) then Throw "pidleput: P has non-empty run queue"
  else Ok (upd_sched (fun s => set_npidle (uint32 (npidle s + 1))
                                 (set_pidle (i :: pidle s) s)) w).

(** [mget()]: the M taken from the idle list, 0 if there is none. *)
Definition mget (w : world) : muintptr * world :=
  match midle (sched w) with
  | [] => (0, w)
  | mp :: rest => (mp, upd_sched (fun s => set_midle rest (int32 (nmidle s - 1)) s) w)
  end.

(** [mcount()] and [checkmcount()]. *)
Definition mcount (s : schedt) : Z := int32 (mnext s - nmfreed s).

Definition checkmcount (w : world) : result world :=
  if mcount (sched w) >? maxmcount (sched w) then Throw "thread exhaustion" else Ok w.

(** [checkdead()].  With no M left running every path of the scan of
    [allgs] ends in a [throw]; the playground's time jump is not part of
    the model. *)
Definition checkdead (w : world) : result world :=
  if islibrary w || isarchive w then Ok w
  else if panicking w >? 0 then Ok w
  else
    let s := sched w in
    let run := int32 (mcount s - nmidle s - nmidlelocked s - nmsys s) in
    if run >? 0 then Ok w
    else if run <? 0 then Throw "checkdead: inconsistent counts"
    else
      let gs := List.filter (fun x : g => negb (g_system x))
                  (snd <$> map_to_list (allgs w)) in
      if existsb (fun x : g => bool_decide (atomicstatus x = Grunnable \/
                                            atomicstatus x = Grunning \/
                                            atomicstatus x = Gsyscall)) gs
      then Throw "checkdead: runnable g"
      else if negb (existsb (fun x : g => bool_decide (atomicstatus x = Gwaiting)) gs)
      then Throw "no goroutines (main called runtime.Goexit) - deadlock!"
      else Throw "all goroutines are asleep - deadlock!".

(** The number of running Ms as [checkdead] computes it:
    [mcount() - sched.nmidle - sched.nmidlelocked - sched.nmsys]. *)
Definition running_ms (s : schedt) : Z :=
  int32 (mcount s - nmidle s - nmidlelocked s - nmsys s).

(** [mput(mp)]. *)
Definition mput (w : world) (mp : muintptr) : result world :=
  checkdead (upd_sched (fun s => set_midle (mp :: midle s) (int32 (nmidle s + 1)) s) w).

(** [incidlelocked(v)]. *)
Definition incidlelocked (w : world) (v : Z) : result world :=
  w ← wlock w;
  let w := upd_sched (fun s => set_nmidlelocked (int32 (nmidlelocked s + v)) s) w in
  w ← (if v >? 0 then checkdead w else Ok w);
  wunlock w.

(** *** Binding an M to a P *)

(** [acquirep(_p_)] by the M [me]. *)
Definition acquirep (w : world) (me : muintptr) (i : nat) : result world :=
  if bool_decide (m_p (the_m w me) <> None) || mcache (the_m w me)
  then Throw "acquirep: already in go"
  else if negb (p_m (the_p w i) =? 0) || negb (bool_decide (p_status (the_p w i) = Pidle))
  then Throw "acquirep: invalid p state"
  else
    let w := upd_m me (set_m_p (Some i)) w in
    let w := upd_p i (fun x => set_p_status Prunning (set_p_m me x)) w in
    Ok (upd_m me (set_mcache true) w).

(** [releasep()] by the M [me]: the released P and the state. *)
Definition releasep (w : world) (me : muintptr) : result (nat * world) :=
  match m_p (the_m w me) with
  | None => Throw "releasep: invalid arg"
  | Some i =>
      if negb (mcache (the_m w me)) then Throw "releasep: invalid arg"
      else if negb (p_m (the_p w i) =? me) ||
              negb (bool_decide (p_status (the_p w i) = Prunning))
      then Throw "releasep: invalid p state"
      else
        let w := upd_m me (fun x => set_mcache false (set_m_p None x)) w in
        Ok (i, upd_p i (fun x => set_p_status Pidle (set_p_m 0 x)) w)
  end.

(** *** Starting and waking workers *)

(** The end of [ready], [allocm] and [newproc1]:
    [if _g_.m.locks == 0 && _g_.preempt { _g_.stackguard0 = stackPreempt }]. *)
Definition restore_preempt (w : world) (me : muintptr) (cur : guintptr) : world :=
  if (locks (the_m w me) =? 0) && preempt (the_g w cur)
  then upd_g cur (set_stackguard0 StackPreempt) w else w.

(** [mcommoninit(mp)]: the part that numbers the new M and checks the
    thread limit. *)
Definition mcommoninit (w : world) : result world :=
  w ← wlock w;
  if int64 (mnext (sched w) + 1) <? mnext (sched w)
  then Throw "runtime: thread ID overflow"
  else
    let w := upd_sched (fun s => set_mnext (int64 (mnext s + 1)) s) w in
    w ← checkmcount w;
    wunlock w.

(** [allocm(_p_, fn)] by the M [me] running the G [cur]; [mp] is the
    address [new(m)] returns.  The list of freed Ms is not part of the
    model. *)
Definition allocm (w : world) (me : muintptr) (cur : guintptr) (_p_ : nat)
    (fn : option mfn) (mp : muintptr) : result world :=
  let w := upd_m me (fun x => set_locks (locks x + 1) x) w in
  w ← (if bool_decide (m_p (the_m w me) = None) then acquirep w me _p_ else Ok w);
  let w := set_allm (<[mp := mkM None None false false fn false 0 0 0 0 0 false 0]>
                       (allm w)) w in
  w ← mcommoninit w;
  w ← (if bool_decide (m_p (the_m w me) = Some _p_)
       then '(_, w) ← releasep w me; Ok w else Ok w);
  let w := upd_m me (fun x => set_locks (locks x - 1) x) w in
  Ok (restore_preempt w me cur).

(** [newm(fn, _p_)]: the new M is handed to the template thread when the
    caller is a locked or a C thread, and to [newosproc] otherwise. *)
Definition newm (w : world) (me : muintptr) (cur : guintptr) (_p_ : nat)
    (fn : option mfn) (mp : muintptr) : result world :=
  w ← allocm w me cur _p_ fn mp;
  let w := upd_m mp (set_nextp (Some _p_)) w in
  if negb (lockedExt (the_m w me) =? 0) || incgo (the_m w me) then
    if haveTemplateThread w =? 0
    then Throw "on a locked thread with no template thread"
    else Ok (set_newmHandoff (mp :: newmHandoff w) w)
  else Ok (set_osthreads (mp :: osthreads w) w).

(** [mspinning()], run by a new M as its start function. *)
Definition mspinning (w : world) (mp : muintptr) : world :=
  upd_m mp (set_spinning true) w.

(** [mstart1] of a new M up to its call of [schedule]: run the start
    function, then bind the P left in [nextp]. *)
Definition mstart1 (w : world) (mp : muintptr) : result world :=
  let w := match mstartfn (the_m w mp) with
           | Some Fn_mspinning => mspinning w mp
           | _ => w
           end in
  match nextp (the_m w mp) with
  | None => Throw "nil pointer dereference"
  | Some i =>
      w ← acquirep w mp i;
      Ok (upd_m mp (set_nextp None) w)
  end.

(** [startm(_p_, spinning)]; [_p_] is [None] for nil. *)
Definition startm (w : world) (me : muintptr) (cur : guintptr) (_p_ : option nat)
    (spinning_ : bool) (newaddr : muintptr) : result world :=
  w ← wlock w;
  let '(_p_, w) := match _p_ with
                   | None => pidleget w
                   | Some i => (Some i, w)
                   end in
  match _p_ with
  | None =>
      w ← wunlock w;
      if spinning_ then
        let v := uint32 (nmspinning (sched w) - 1) in
        let w := upd_sched (set_nmspinning v) w in
        if int32 v <? 0 then Throw "startm: negative nmspinning" else Ok w
      else Ok w
  | Some i =>
      let '(mp, w) := mget w in
      w ← wunlock w;
      if mp =? 0 then
        newm w me cur i (if spinning_ then Some Fn_mspinning else None) newaddr
      else if spinning (the_m w mp) then Throw "startm: m is spinning"
      else if bool_decide (nextp (the_m w mp) <> None) then Throw "startm: m has p"
      else if spinning_ && negb (runqempty (the_p w i))
      then Throw "startm: p has runnable gs"
      else
        Ok (upd_m mp (fun x => set_park true (set_nextp (Some i)
                                  (set_spinning spinning_ x))) w)
  end.

(** [wakep()]. *)
Definition wakep (w : world) (me : muintptr) (cur : guintptr) (newaddr : muintptr)
  : result world :=
  let '(ok, v) := cas (nmspinning (sched w)) 0 1 in
  if negb ok then Ok w
  else startm (upd_sched (set_nmspinning v) w) me cur None true newaddr.

Section Scheduler.

Variable raceenabled : bool.
Variable fastrand : Z.
Variable fastrandn : Z -> Z.

(** [runqput(_p_, gp, next)] on the P at index [i] of [allp]. *)
Definition runqput_at (fuel : nat) (w : world) (i : nat) (gp : guintptr) (next : bool)
  : result world :=
  '(x, s) ← runqput raceenabled fastrand fastrandn fuel (the_p w i) (sched w) gp next;
  Ok (set_sched s (upd_p i (fun _ => x) w)).

(** [ready(gp, traceskip, next)] by the M [me] running the G [cur], with
    tracing off. *)
Definition ready (fuel : nat) (w : world) (me : muintptr) (cur : guintptr)
    (gp : guintptr) (next : bool) (newaddr : muintptr) : result world :=
  let status := readgstatus w gp in
  let w := upd_m me (fun x => set_locks (locks x + 1) x) w in
  if negb (bool_decide (status.1 = Gwaiting)) then Throw "bad g->status in ready"
  else
    w ← casgstatus fuel w gp Gwaiting Grunnable;
    match m_p (the_m w me) with
    | None => Throw "nil pointer dereference"
    | Some i =>
        w ← runqput_at fuel w i gp next;
        w ← (if negb (npidle (sched w) =? 0) && (nmspinning (sched w) =? 0)
             then wakep w me cur newaddr else Ok w);
        let w := upd_m me (fun x => set_locks (locks x - 1) x) w in
        Ok (restore_preempt w me cur)
    end.

End Scheduler.

(** *** Other scheduler functions *)

(** [globrunqputhead(gp)]: put [gp] at the head of the chain. *)
Definition globrunqputhead (gp : guintptr) (s : schedt) : schedt :=
  set_grunq (gp :: grunq s) (int32 (runqsize s + 1)) s.

(** [dropg()] by the M [me]: [m.curg.m = nil; m.curg = nil]. *)
Definition dropg (w : world) (me : muintptr) : result world :=
  let gp := curg (the_m w me) in
  if gp =? 0 then Throw "nil pointer dereference"
  else Ok (upd_m me (set_curg 0) (upd_g gp (set_g_m 0) w)).

(** [execute(gp, inheritTime)] by the M [me], up to the jump into [gp];
    profiling and tracing are off. *)
Definition execute (fuel : nat) (w : world) (me : muintptr) (gp : guintptr)
    (inheritTime : bool) : result world :=
  w ← casgstatus fuel w gp Grunnable Grunning;
  let w := upd_g gp (fun x => set_stackguard0 StackGuardReal (set_preempt false x)) w in
  match m_p (the_m w me) with
  | None => Throw "nil pointer dereference"
  | Some i =>
      let w := if inheritTime then w
               else upd_p i (fun x => set_schedtick (uint32 (schedtick x + 1)) x) w in
      let w := upd_m me (set_curg gp) w in
      Ok (upd_g gp (set_g_m me) w)
  end.

(** [goschedImpl(gp)] by the M [me], up to its call of [schedule]. *)
Definition goschedImpl (fuel : nat) (w : world) (me : muintptr) (gp : guintptr)
  : result world :=
  if negb (bool_decide (atomicstatus (the_g w gp) = Grunning)) then Throw "bad g status"
  else
    w ← casgstatus fuel w gp Grunning Grunnable;
    w ← dropg w me;
    w ← wlock w;
    wunlock (upd_sched (globrunqput gp) w).

(** [preemptone(_p_)] called by the M [me], for the P at index [i]. *)
Definition preemptone (w : world) (me : muintptr) (i : nat) : bool * world :=
  let mp := p_m (the_p w i) in
  if (mp =? 0) || (mp =? me) then (false, w)
  else
    let gp := curg (the_m w mp) in
    if (gp =? 0) || (gp =? m_g0 (the_m w mp)) then (false, w)
    else (true, upd_g gp (fun x => set_stackguard0 StackPreempt (set_preempt true x)) w).

(** [preemptall()]: the loop over [allp], from index [i] on. *)
Fixpoint preemptall_from (w : world) (me : muintptr) (i cnt : nat) (res : bool)
  : bool * world :=
  match cnt with
  | O => (res, w)
  | S cnt' =>
      if negb (bool_decide (p_status (the_p w i) = Prunning))
      then preemptall_from w me (S i) cnt' res
      else
        let '(ok, w) := preemptone w me i in
        preemptall_from w me (S i) cnt' (if ok then true else res)
  end.

Definition preemptall (w : world) (me : muintptr) : bool * world :=
  preemptall_from w me 0 (length (allp w)) false.

(** The G that a preemption request by the M [me] for the P at index [i]
    reaches: the current G of the M that runs the P, when that M is another
    one and the G is not its [g0]. *)
Definition preempt_target (w : world) (me : muintptr) (i : nat) : option guintptr :=
  let mp := p_m (the_p w i) in
  let gp := curg (the_m w mp) in
  if bool_decide (p_status (the_p w i) = Prunning) && negb (mp =? 0) &&
     negb (mp =? me) && negb (gp =? 0) && negb (gp =? m_g0 (the_m w mp))
  then Some gp else None.

Definition preempt_flag (x : g) : g := set_stackguard0 StackPreempt (set_preempt true x).

(** [stopm()] by the M [me] up to its sleep on [m.park]. *)
Definition stopm_sleep (w : world) (me : muintptr) : result world :=
  if negb (locks (the_m w me) =? 0) then Throw "stopm holding locks"
  else if bool_decide (m_p (the_m w me) <> None) then Throw "stopm holding p"
  else if spinning (the_m w me) then Throw "stopm spinning"
  else
    w ← wlock w;
    w ← mput w me;
    wunlock w.

(** [stopm()] from the return of [notesleep] on, for an M that is not
    asked to help the collector: the sleep lasts until the note is
    signalled; then the note is cleared and the P left in [nextp] bound. *)
Definition stopm_wakeup (w : world) (me : muintptr) : result world :=
  if negb (park (the_m w me)) then Hang
  else
    let w := upd_m me (set_park false) w in
    match nextp (the_m w me) with
    | None => Throw "nil pointer dereference"
    | Some i =>
        w ← acquirep w me i;
        Ok (upd_m me (set_nextp None) w)
    end.

(** [gcstopm()] by the M [me], up to the sleep of [stopm]. *)
Definition gcstopm (w : world) (me : muintptr) : result world :=
  if gcwaiting (sched w) =? 0 then Throw "gcstopm: not waiting for gc"
  else
    w ← (if spinning (the_m w me) then
           let w := upd_m me (set_spinning false) w in
           let v := uint32 (nmspinning (sched w) - 1) in
           let w := upd_sched (set_nmspinning v) w in
           if int32 v <? 0 then Throw "gcstopm: negative nmspinning" else Ok w
         else Ok w);
    '(i, w) ← releasep w me;
    w ← wlock w;
    let w := upd_p i (set_p_status Pgcstop) w in
    let w := upd_sched (fun s => set_stopwait (int32 (stopwait s - 1)) s) w in
    let w := if stopwait (sched w) =? 0 then upd_sched (set_stopnote true) w else w in
    w ← wunlock w;
    stopm_sleep w me.

(** [resetspinning()] by the M [me] running the G [cur]. *)
Definition resetspinning (w : world) (me : muintptr) (cur : guintptr)
    (newaddr : muintptr) : result world :=
  if negb (spinning (the_m w me)) then Throw "resetspinning: not a spinning m"
  else
    let w := upd_m me (set_spinning false) w in
    let v := uint32 (nmspinning (sched w) - 1) in
    let w := upd_sched (set_nmspinning v) w in
    if int32 v <? 0 then Throw "findrunnable: negative nmspinning"
    else if (v =? 0) && (npidle (sched w) >? 0) then wakep w me cur newaddr
    else Ok w.

(** [exitsyscallfast_pidle()] by the M [me]: the flag returned and the state. *)
Definition exitsyscallfast_pidle (w : world) (me : muintptr) : result (bool * world) :=
  w ← wlock w;
  let '(_p_, w) := pidleget w in
  let w := if bool_decide (_p_ <> None) && negb (sysmonwait (sched w) =? 0)
           then upd_sched (set_sysmon 0 true) w else w in
  w ← wunlock w;
  match _p_ with
  | Some i => w ← acquirep w me i; Ok (true, w)
  | None => Ok (false, w)
  end.

(** The first loop of [injectglist]: every G of the list, in order, is
    made runnable and put on the global queue. *)
Fixpoint injectglist_queue (fuel : nat) (w : world) (glist : list guintptr)
  : result world :=
  match glist with
  | [] => Ok w
  | gp :: rest =>
      w ← casgstatus fuel w gp Gwaiting Grunnable;
      injectglist_queue fuel (upd_sched (globrunqput gp) w) rest
  end.

(** The second loop of [injectglist]:
    [for ; n != 0 && sched.npidle != 0; n-- { startm(nil, false) }];
    [newaddr k] is the address of the M that would be allocated with [k]
    rounds to go. *)
Fixpoint injectglist_start (w : world) (me : muintptr) (cur : guintptr)
    (newaddr : nat -> muintptr) (n : nat) : result world :=
  match n with
  | O => Ok w
  | S n' =>
      if npidle (sched w) =? 0 then Ok w
      else
        w ← startm w me cur None false (newaddr n);
        injectglist_start w me cur newaddr n'
  end.

(** [injectglist(glist)], with tracing off; the list is the chain of Gs. *)
Definition injectglist (fuel : nat) (w : world) (me : muintptr) (cur : guintptr)
    (newaddr : nat -> muintptr) (glist : list guintptr) : result world :=
  match glist with
  | [] => Ok w
  | _ =>
      w ← wlock w;
      w ← injectglist_queue fuel w glist;
      w ← wunlock w;
      injectglist_start w me cur newaddr (length glist)
  end.

Definition set_maxmcount (v : Z) (s : schedt) : schedt :=
  mkSched (lock_held s) (midle s) (nmidle s) (nmidlelocked s) (nmsys s) (mnext s) v
    (nmfreed s) (pidle s) (npidle s) (nmspinning s) (grunq s) (runqsize s) (gcwaiting s)
    (stopwait s) (stopnote s) (sysmonwait s) (sysmonnote s).

(** [setMaxThreads(in)]: the previous limit and the state; [in] is an
    [int] of 64 bits. *)
Definition setMaxThreads (w : world) (in_ : Z) : result (Z * world) :=
  w ← wlock w;
  let out := maxmcount (sched w) in
  let w := upd_sched (set_maxmcount (if in_ >? 2147483647 then 2147483647
                                     else int32 in_)) w in
  w ← checkmcount w;
  w ← wunlock w;
  Ok (out, w).

(** The occupant of the [runnext] slot, as a list. *)
Definition next_list (x : p) : list Z :=
  if runnext x =? 0 then [] else [runnext x].

(** *** Random order of the Ps to steal from *)

(** [gcd(a, b)]: [for b != 0 { a, b = b, a%b }]. *)
Fixpoint gcd_loop (fuel : nat) (a b : Z) : result Z :=
  match fuel with
  | O => Hang
  | S fuel' => if b =? 0 then Ok a else gcd_loop fuel' b (a mod b)
  end.

(** [b] decreases at every pass, so [b + 1] passes are enough. *)
Definition gcd (a b : Z) : result Z := gcd_loop (S (Z.to_nat b)) a b.

Record randomOrder : Type := mkOrder {
  ro_count : Z;
  coprimes : list Z
}.

Record randomEnum : Type := mkEnum {
  e_i : Z;
  e_count : Z;
  e_pos : Z;
  e_inc : Z
}.

(** The loop of [reset]:
    [for i := uint32(1); i <= count; i++ { if gcd(i, count) == 1 { append } }]. *)
Fixpoint reset_loop (fuel : nat) (i count : Z) (acc : list Z) : result (list Z) :=
  match fuel with
  | O => Hang
  | S fuel' =>
      if i <=? count then
        d ← gcd i count;
        reset_loop fuel' (uint32 (i + 1)) count (if d =? 1 then acc ++ [i] else acc)
      else Ok acc
  end.

(** [ord.reset(count)]. *)
Definition randomOrder_reset (fuel : nat) (count : Z) : result randomOrder :=
  l ← reset_loop fuel 1 count [];
  Ok (mkOrder count l).

(** [ord.start(i)]; a remainder by zero is a run-time panic. *)
Definition randomOrder_start (ord : randomOrder) (i : Z) : result randomEnum :=
  if ro_count ord =? 0 then Throw "integer divide by zero"
  else if uint32 (Z.of_nat (length (coprimes ord))) =? 0
  then Throw "integer divide by zero"
  else
    match coprimes ord !! Z.to_nat (i mod uint32 (Z.of_nat (length (coprimes ord)))) with
    | None => Throw "index out of range"
    | Some inc => Ok (mkEnum 0 (ro_count ord) (i mod ro_count ord) inc)
    end.

(** [enum.done()], [enum.next()] and [enum.position()]. *)
Definition randomEnum_done (e : randomEnum) : bool := e_i e =? e_count e.
Definition randomEnum_next (e : randomEnum) : randomEnum :=
  mkEnum (uint32 (e_i e + 1)) (e_count e)
         (uint32 (e_pos e + e_inc e) mod e_count e) (e_inc e).
Definition randomEnum_position (e : randomEnum) : Z := e_pos e.

(** The positions visited by
    [for enum := ord.start(i); !enum.done(); enum.next() { ... enum.position() ... }]
    when the body never leaves the loop. *)
Fixpoint enum_positions (fuel : nat) (e : randomEnum) : result (list Z) :=
  match fuel with
  | O => Hang
  | S fuel' =>
      if randomEnum_done e then Ok []
      else
        l ← enum_positions fuel' (randomEnum_next e);
        Ok (randomEnum_position e :: l)
  end.

(** ** Memory advice to the kernel ([mem_linux.go]) *)

(** [uintptr] arithmetic wraps at 64 bits. *)
Definition uintptr (z : Z) : Z := z mod 18446744073709551616.

Inductive advice : Type := MADV_DONTNEED | MADV_HUGEPAGE | MADV_NOHUGEPAGE.

(** One call [madvise(addr, n, flags)]. *)
Record madvise_call : Type := mkMadvise {
  ma_addr : Z;
  ma_len : Z;
  ma_advice : advice
}.

Section Mem.

(** [sys.HugePageSize] and [physPageSize]. *)
Variable HugePageSize : Z.
Variable physPageSize : Z.

(** The huge pages [sysUnused] takes out of transparent huge pages: the
    [madvise] calls of its first part, in order. *)
Definition sysUnused_nohuge (v n : Z) : list madvise_call :=
  if HugePageSize =? 0 then []
  else
    let s := HugePageSize in
    let head := if negb (v mod s =? 0) then Z.ldiff v (uintptr (s - 1)) else 0 in
    let tail := if negb (uintptr (v + n) mod s =? 0)
                then Z.ldiff (uintptr (v + n - 1)) (uintptr (s - 1)) else 0 in
    if negb (head =? 0) && (uintptr (head + HugePageSize) =? tail)
    then [mkMadvise head (uintptr (2 * HugePageSize)) MADV_NOHUGEPAGE]
    else
      (if negb (head =? 0) then [mkMadvise head HugePageSize MADV_NOHUGEPAGE] else []) ++
      (if negb (tail =? 0) && negb (tail =? head)
       then [mkMadvise tail HugePageSize MADV_NOHUGEPAGE] else []).

(** [sysUnused(v, n)]: the [madvise] calls made, in order, and whether the
    function returns or throws. *)
Definition sysUnused (v n : Z) : list madvise_call * result unit :=
  let calls := sysUnused_nohuge v n in
  if negb (Z.land v (uintptr (physPageSize - 1)) =? 0) ||
     negb (Z.land n (uintptr (physPageSize - 1)) =? 0)
  then (calls, Throw "unaligned sysUnused")
  else (calls ++ [mkMadvise v n MADV_DONTNEED], Ok tt).

(** [sysUsed(v, n)]: the [madvise] calls made. *)
Definition sysUsed (v n : Z) : list madvise_call :=
  if HugePageSize =? 0 then []
  else
    let s := HugePageSize in
    let beg := Z.ldiff (uintptr (v + (s - 1))) (uintptr (s - 1)) in
    let end_ := Z.ldiff (uintptr (v + n)) (uintptr (s - 1)) in
    if beg <? end_ then [mkMadvise beg (uintptr (end_ - beg)) MADV_HUGEPAGE] else [].

End Mem.

(** The huge page starting at [a] lies inside one of the ranges advised
    with [adv]. *)
Definition advised (hps : Z) (adv : advice) (calls : list madvise_call) (a : Z) : Prop :=
  exists c, c ∈ calls /\ ma_advice c = adv /\
            ma_addr c <= a /\ a + hps <= ma_addr c + ma_len c.

(** *** Single-threaded use of one local queue

    A sequence of pushes and pops by the owner of a P, with nothing else
    running. *)
Inductive qop : Type :=
| Push (gp : guintptr) (next : bool)
| Pop.

Fixpoint run_ops (raceenabled : bool) (fastrand : Z) (fastrandn : Z -> Z)
    (fuel : nat) (ops : list qop) (x : p) (s : schedt) : result (p * schedt) :=
  match ops with
  | [] => Ok (x, s)
  | Push gp next :: ops' =>
      '(x, s) ← runqput raceenabled fastrand fastrandn fuel x s gp next;
      run_ops raceenabled fastrand fastrandn fuel ops' x s
  | Pop :: ops' =>
      '(_, x) ← runqget fuel x;
      run_ops raceenabled fastrand fastrandn fuel ops' x s
  end.

(** The last task pushed with [next = true] and not popped since ([cur] is
    the occupant of the slot before the sequence, 0 is none). *)
Fixpoint last_favored (ops : list qop) (cur : guintptr) : guintptr :=
  match ops with
  | [] => cur
  | Push gp true :: ops' => last_favored ops' gp
  | Push _ false :: ops' => last_favored ops' cur
  | Pop :: ops' => last_favored ops' 0
  end.

(** *** Sample states

    A P that has just been acquired by M 1, with an empty queue, the same P
    with a full ring holding tasks 1..256, and a scheduler with nothing
    queued and nobody idle. *)
Definition p_fresh : p := mkP Prunning 1 0 0 0 0 (replicate 256 0) 0.
Definition p_full : p := mkP Prunning 1 0 0 0 256 (map Z.of_nat (seq 1 256)) 0.
Definition p_five : p :=
  mkP Prunning 2 0 0 0 5 ([21; 22; 23; 24; 25] ++ replicate 251 0) 0.
Definition sched_fresh : schedt :=
  mkSched false [] 0 0 0 1 10000 0 [] 0 0 [] 0 0 0 false 0 false.

(* ===================================================================== *)
(** * Properties *)

(** ** Arithmetic of ring indices *)

Lemma uint32_range z : 0 <= uint32 z < 4294967296.
Proof. unfold uint32. apply Z.mod_pos_bound. lia. Qed.

Lemma uint32_id z : 0 <= z < 4294967296 -> uint32 z = z.
Proof. unfold uint32. intros. apply Z.mod_small. lia. Qed.

Lemma cas_same cur new : cas cur cur new = (true, new).
Proof. unfold cas. by rewrite Z.eqb_refl. Qed.

(** The ring of a P is well formed: 256 slots, [uint32] indices, and at
    most 256 tasks between head and tail. *)
Definition ring_wf (x : p) : Prop :=
  length (runq x) = 256%nat /\
  0 <= runqhead x < 4294967296 /\
  0 <= runqtail x < 4294967296 /\
  uint32 (runqtail x - runqhead x) <= 256.

(** The tasks queued on the ring, oldest first. *)
Definition ring_len (x : p) : Z := uint32 (runqtail x - runqhead x).
Definition ring_list (x : p) : list guintptr :=
  ring_slice (runq x) (runqhead x) (Z.to_nat (ring_len x)).

(** The tasks waiting on a P in the order [runqget] hands them out. *)
Definition local_tasks (x : p) : list Z := next_list x ++ ring_list x.

Ltac u32 :=
  unfold ring_len, uint32, int32, runq_len in *;
  Z.div_mod_to_equations; lia.

Lemma slot_set_length q i g : length (slot_set q i g) = length q.
Proof. unfold slot_set. apply length_insert. Qed.

Lemma slot_set_eq q i g :
  length q = 256%nat -> slot (slot_set q i g) i = g.
Proof.
  intros Hl. unfold slot, slot_set, runq_len.
  assert (0 <= i mod 256 < 256) by (apply Z.mod_pos_bound; lia).
  rewrite list_lookup_insert_eq; [done | lia].
Qed.

Lemma slot_set_ne q i j g :
  i mod 256 <> j mod 256 -> slot (slot_set q i g) j = slot q j.
Proof.
  intros Hne. unfold slot, slot_set, runq_len.
  assert (0 <= i mod 256 < 256) by (apply Z.mod_pos_bound; lia).
  assert (0 <= j mod 256 < 256) by (apply Z.mod_pos_bound; lia).
  rewrite list_lookup_insert_ne; [done | lia].
Qed.

Lemma ring_slice_length q h n : length (ring_slice q h n) = n.
Proof. unfold ring_slice. by rewrite length_map, length_seq. Qed.

Lemma ring_slice_lookup q h n (i : nat) :
  (i < n)%nat -> ring_slice q h n !! i = Some (slot q (uint32 (h + Z.of_nat i))).
Proof.
  intros Hi. unfold ring_slice.
  rewrite list_lookup_fmap, lookup_seq_lt; done.
Qed.

(** *** Slices of the ring and well-formedness *)

Lemma ring_wf_push x gp :
  ring_wf x -> ring_len x < 256 ->
  ring_wf (set_runqtail (uint32 (runqtail x + 1))
             (set_runq (slot_set (runq x) (runqtail x) gp) x)).
Proof.
  intros (Hl & Hh & Ht & Hle) Hroom. unfold ring_wf; simpl.
  rewrite slot_set_length. repeat split; try lia; u32.
Qed.

Lemma ring_wf_overflow x :
  ring_wf x -> ring_len x = 256 ->
  ring_wf (set_runqhead (uint32 (runqhead x + 128)) x).
Proof.
  intros (Hl & Hh & Ht & Hle) Hfull. unfold ring_wf; simpl.
  repeat split; try lia; u32.
Qed.

Lemma ring_wf_pop x :
  ring_wf x -> runqtail x <> runqhead x ->
  ring_wf (set_runqhead (uint32 (runqhead x + 1)) x).
Proof.
  intros (Hl & Hh & Ht & Hle) Hne. unfold ring_wf; simpl.
  repeat split; try lia; u32.
Qed.

Lemma uint32_add_l a b : uint32 (uint32 a + b) = uint32 (a + b).
Proof. unfold uint32. by rewrite Zplus_mod_idemp_l. Qed.

Lemma ring_slice_app q h (a b : nat) :
  ring_slice q h (a + b) =
    ring_slice q h a ++ ring_slice q (uint32 (h + Z.of_nat a)) b.
Proof.
  unfold ring_slice. rewrite seq_app, map_app. f_equal.
  rewrite Nat.add_0_l. rewrite <- (Nat.add_0_r a) at 1.
  rewrite <- (fmap_add_seq a 0 b).
  change (map ?f (?g <$> ?l)) with (f <$> (g <$> l)).
  rewrite <- list_fmap_compose. apply list_fmap_ext. intros i k _. simpl.
  rewrite uint32_add_l. f_equal. f_equal. lia.
Qed.


Lemma ring_len_range x : 0 <= ring_len x < 4294967296.
Proof. apply uint32_range. Qed.

Lemma ring_slice_ext q q' h n :
  (forall i : nat, (i < n)%nat ->
     slot q' (uint32 (h + Z.of_nat i)) = slot q (uint32 (h + Z.of_nat i))) ->
  ring_slice q' h n = ring_slice q h n.
Proof.
  intros Hext. unfold ring_slice. apply map_ext_in. intros i Hi.
  apply in_seq in Hi. apply Hext. lia.
Qed.

(** A push on a ring with room appends the task to the queued tasks. *)
Lemma ring_list_push x gp :
  ring_wf x -> ring_len x < 256 ->
  let x' := set_runqtail (uint32 (runqtail x + 1))
              (set_runq (slot_set (runq x) (runqtail x) gp) x) in
  ring_len x' = ring_len x + 1 /\ ring_list x' = ring_list x ++ [gp].
Proof.
  intros (Hl & Hh & Ht & Hle) Hroom x'.
  pose proof (ring_len_range x) as Hr.
  assert (ring_len x' = ring_len x + 1) as Hlen.
  { unfold x', ring_len in *. simpl. u32. }
  split; [exact Hlen|].
  unfold ring_list. rewrite Hlen.
  replace (Z.to_nat (ring_len x + 1)) with (Z.to_nat (ring_len x) + 1)%nat by lia.
  rewrite ring_slice_app. unfold x'. simpl runq. simpl runqhead. f_equal.
  - apply ring_slice_ext. intros i Hi. apply slot_set_ne.
    assert (0 <= Z.of_nat i < ring_len x) as Hi' by lia.
    clear Hi Hlen. revert Hi'. generalize (Z.of_nat i). intros k Hk.
    u32.
  - rewrite Z2Nat.id by lia. unfold ring_slice. simpl.
    replace (uint32 (uint32 (runqhead x + ring_len x) + Z.of_nat 0))
      with (runqtail x) by (clear Hlen; u32).
    by rewrite slot_set_eq.
Qed.

Lemma globrunqget_n_bounds size gomaxprocs max :
  0 < size < 2147483647 -> 0 < gomaxprocs ->
  globrunqget_n size gomaxprocs max =
    Z.min (Z.min (size / gomaxprocs + 1) size)
          (Z.min (if max >? 0 then max else 128) 128) /\
  1 <= globrunqget_n size gomaxprocs max <= 128 /\
  globrunqget_n size gomaxprocs max <= size.
Proof.
  intros Hs Hp. unfold globrunqget_n, runq_len.
  rewrite Z.quot_div_nonneg by lia.
  assert (0 <= size / gomaxprocs <= size) as Hd.
  { split; [apply Z.div_pos; lia|]. apply Z.div_le_upper_bound; nia. }
  assert (int32 (size / gomaxprocs + 1) = size / gomaxprocs + 1) as ->.
  { generalize dependent (size / gomaxprocs). intros d Hd. u32. }
  change (256 / 2) with 128.
  generalize dependent (size / gomaxprocs). intros d Hd.
  set (n2 := if d + 1 >? size then size else d + 1).
  assert (n2 = Z.min (d + 1) size) as Hn2.
  { unfold n2. destruct (Z.gtb_spec (d + 1) size); lia. }
  clearbody n2.
  set (n3 := if (max >? 0) && (n2 >? max) then max else n2).
  assert (n3 = if max >? 0 then Z.min n2 max else n2) as Hn3.
  { unfold n3. destruct (Z.gtb_spec max 0), (Z.gtb_spec n2 max); simpl; lia. }
  clearbody n3.
  destruct (Z.gtb_spec n3 128), (Z.gtb_spec max 0); lia.
Qed.

Section RunQueueFacts.

(** The facts are about the ordinary build, [raceenabled = false], in which
    no random draw is made. *)
Variable fastrand : Z.
Variable fastrandn : Z -> Z.

Abbreviation runqput' := (runqput false fastrand fastrandn).
Abbreviation runqput_retry' := (runqput_retry false fastrandn).
Abbreviation runqputslow' := (runqputslow false fastrandn).
Abbreviation globrunqget' := (globrunqget false fastrand fastrandn).

(** *** [runqput] *)

(** A push on a ring with room stores the task at the tail. *)
Lemma runqput_retry_room fuel x s gp :
  ring_len x < 256 ->
  runqput_retry' (S fuel) x s gp =
    Ok (set_runqtail (uint32 (runqtail x + 1))
          (set_runq (slot_set (runq x) (runqtail x) gp) x), s).
Proof.
  intros Hroom. simpl. unfold ring_len, runq_len in *.
  destruct (Z.ltb_spec (uint32 (runqtail x - runqhead x)) 256); [done | lia].
Qed.

(** The overflow path on a full ring whose head is still [h]. *)
Lemma runqputslow_full x s gp :
  ring_wf x -> ring_len x = 256 -> lock_held s = false ->
  runqputslow' x s gp (runqhead x) (runqtail x) =
    Ok (true, set_runqhead (uint32 (runqhead x + 128)) x,
        set_lock_held false
          (globrunqputbatch (ring_slice (runq x) (runqhead x) 128 ++ [gp]) 129
             (set_lock_held true s))).
Proof.
  intros (Hl & Hh & Ht & Hle) Hfull Hlock.
  unfold runqputslow, randomizeScheduler.
  unfold ring_len in Hfull. rewrite Hfull. simpl.
  rewrite cas_same. simpl.
  unfold lock. rewrite Hlock. simpl. reflexivity.
Qed.

(** A push on a full ring takes the overflow path once and returns. *)
Lemma runqput_retry_full fuel x s gp :
  ring_wf x -> ring_len x = 256 -> lock_held s = false ->
  runqput_retry' (S fuel) x s gp =
    Ok (set_runqhead (uint32 (runqhead x + 128)) x,
        set_lock_held false
          (globrunqputbatch (ring_slice (runq x) (runqhead x) 128 ++ [gp]) 129
             (set_lock_held true s))).
Proof.
  intros Hwf Hfull Hlock. simpl.
  unfold ring_len, runq_len in *.
  destruct (Z.ltb_spec (uint32 (runqtail x - runqhead x)) 256); [lia|].
  rewrite runqputslow_full; done.
Qed.

(** On a well-formed ring and with the scheduler lock free, the [retry:]
    loop returns; it leaves [runnext] alone and the lock free. *)
Lemma runqput_retry_ok fuel x s gp :
  ring_wf x -> lock_held s = false ->
  exists x' s', runqput_retry' (S fuel) x s gp = Ok (x', s') /\
    ring_wf x' /\ lock_held s' = false /\ runnext x' = runnext x.
Proof.
  intros Hwf Hlock.
  destruct (Z.lt_ge_cases (ring_len x) 256) as [Hroom | Hfull].
  - rewrite runqput_retry_room by done.
    eexists _, _. split; [done|]. split; [by apply ring_wf_push | done].
  - assert (ring_len x = 256) as Heq.
    { destruct Hwf as (_ & _ & _ & Hle). unfold ring_len in *. lia. }
    rewrite runqput_retry_full by done.
    eexists _, _. split; [done|]. split; [by apply ring_wf_overflow | done].
Qed.

Lemma runqput_next_ok fuel x gp :
  runqput_next (S fuel) x gp = Ok (runnext x, set_runnext gp x).
Proof. simpl. by rewrite cas_same. Qed.

(** [runqput] returns; afterwards [runnext] holds the pushed task when
    [next] was set and is unchanged otherwise. *)
Lemma runqput_ok fuel x s gp next :
  ring_wf x -> lock_held s = false ->
  exists x' s', runqput' (S fuel) x s gp next = Ok (x', s') /\
    ring_wf x' /\ lock_held s' = false /\
    runnext x' = if next then gp else runnext x.
Proof.
  intros Hwf Hlock.
  unfold runqput, randomizeScheduler. cbn [andb].
  destruct next.
  - rewrite runqput_next_ok. cbn [mbind result_bind].
    destruct (Z.eqb_spec (runnext x) 0) as [Hz | Hnz].
    + eexists _, _. split; [done|]. done.
    + destruct (runqput_retry_ok fuel (set_runnext gp x) s (runnext x))
        as (x' & s' & Hrun & Hwf' & Hlock' & Hnext'); try done.
      eexists _, _. split; [exact Hrun|]. done.
  - apply runqput_retry_ok; done.
Qed.

(** *** [runqget] *)

Lemma runqget_next_slot fuel x :
  runnext x <> 0 ->
  runqget (S fuel) x = Ok (runnext x, true, set_runnext 0 x).
Proof.
  intros Hnz. unfold runqget. simpl.
  destruct (Z.eqb_spec (runnext x) 0); [done|].
  by rewrite cas_same.
Qed.

Lemma runqget_ring_empty fuel x :
  runnext x = 0 -> runqtail x = runqhead x ->
  runqget (S fuel) x = Ok (0, false, x).
Proof.
  intros Hz Heq. unfold runqget. simpl. rewrite Hz. simpl.
  rewrite Heq, Z.eqb_refl. done.
Qed.

Lemma runqget_ring_head fuel x :
  runnext x = 0 -> runqtail x <> runqhead x ->
  runqget (S fuel) x =
    Ok (slot (runq x) (runqhead x), false, set_runqhead (uint32 (runqhead x + 1)) x).
Proof.
  intros Hz Hne. unfold runqget. simpl. rewrite Hz. simpl.
  destruct (Z.eqb_spec (runqtail x) (runqhead x)); [done|].
  by rewrite cas_same.
Qed.

Lemma runqget_ok fuel x :
  ring_wf x ->
  exists gp inh x', runqget (S fuel) x = Ok (gp, inh, x') /\
    ring_wf x' /\ runnext x' = 0.
Proof.
  intros Hwf. destruct (Z.eq_dec (runnext x) 0) as [Hz | Hnz].
  - destruct (Z.eq_dec (runqtail x) (runqhead x)) as [He | Hne].
    + rewrite runqget_ring_empty by done. by eexists _, _, _.
    + rewrite runqget_ring_head by done. eexists _, _, _.
      split; [done|]. split; [by apply ring_wf_pop | done].
  - rewrite runqget_next_slot by done. by eexists _, _, _.
Qed.

(** Any sequence of owner operations on a well-formed ring runs to the
    end, and [runnext] then holds the last favoured task. *)
Lemma run_ops_runnext fuel ops : forall x s,
  ring_wf x -> lock_held s = false ->
  exists x' s', run_ops false fastrand fastrandn (S fuel) ops x s = Ok (x', s') /\
    ring_wf x' /\ lock_held s' = false /\
    runnext x' = last_favored ops (runnext x).
Proof.
  induction ops as [| [gp next |] ops IH]; intros x s Hwf Hlock.
  - by eexists _, _.
  - destruct (runqput_ok fuel x s gp next Hwf Hlock)
      as (x1 & s1 & Hput & Hwf1 & Hlock1 & Hnext1).
    destruct (IH x1 s1 Hwf1 Hlock1) as (x' & s' & Hrun & Hwf' & Hlock' & Hnext').
    exists x', s'. cbn [run_ops]. rewrite Hput. cbn [mbind result_bind].
    split; [exact Hrun|]. split; [done|]. split; [done|].
    rewrite Hnext', Hnext1. by destruct next.
  - destruct (runqget_ok fuel x Hwf) as (gp & inh & x1 & Hget & Hwf1 & Hnext1).
    destruct (IH x1 s Hwf1 Hlock) as (x' & s' & Hrun & Hwf' & Hlock' & Hnext').
    exists x', s'. cbn [run_ops]. rewrite Hget. cbn [mbind result_bind].
    split; [exact Hrun|]. split; [done|]. split; [done|].
    by rewrite Hnext', Hnext1.
Qed.

(** *** [globrunqget] *)

Lemma set_grunq_twice l n l' n' s :
  set_grunq l n (set_grunq l' n' s) = set_grunq l n s.
Proof. reflexivity. Qed.

Lemma runqput_tail fuel x s gp :
  runqput' fuel x s gp false = runqput_retry' fuel x s gp.
Proof. reflexivity. Qed.

(** The transfer loop, on a ring with room for the [k] tasks. *)
Lemma globrunqget_loop_ok fuel k : forall x s,
  ring_wf x -> ring_len x + Z.of_nat k <= 256 -> (k <= length (grunq s))%nat ->
  exists x',
    globrunqget_loop false fastrand fastrandn (S fuel) k x s =
      Ok (x', set_grunq (drop k (grunq s)) (runqsize s) s) /\
    ring_wf x' /\ ring_list x' = ring_list x ++ take k (grunq s) /\
    ring_len x' = ring_len x + Z.of_nat k /\
    runnext x' = runnext x /\ runqhead x' = runqhead x.
Proof.
  induction k as [| k IH]; intros x s Hwf Hroom Hlen.
  - exists x. rewrite drop_0, take_0, app_nil_r.
    split; [by destruct s|]. split; [exact Hwf|]. split; [done|].
    split; [lia | done].
  - destruct (grunq s) as [| gp1 rest] eqn:Hq; [simpl in Hlen; lia|].
    cbn [globrunqget_loop]. rewrite Hq, runqput_tail.
    rewrite runqput_retry_room by lia. cbn [mbind result_bind].
    destruct (ring_list_push x gp1 Hwf ltac:(lia)) as [Hlen1 Hlist1].
    pose proof (ring_wf_push x gp1 Hwf ltac:(lia)) as Hwf1.
    set (x1 := set_runqtail _ _) in *.
    destruct (IH x1 (set_grunq rest (runqsize s) s) Hwf1) as (x' & Hrun & Hwf' & Hlist' & Hlen' & Hnext' & Hhead').
    { lia. }
    { simpl in *. lia. }
    exists x'. split; [exact Hrun|]. split; [done|].
    split; [rewrite Hlist', Hlist1; simpl; by rewrite <- app_assoc|].
    split; [lia | done].
Qed.

(** What a push leaves alone: the P keeps its status and owner, and the
    scheduler changes in its run queue only. *)
Lemma runqput_frame fuel x s gp next :
  ring_wf x -> lock_held s = false ->
  exists x' s', runqput' (S fuel) x s gp next = Ok (x', s') /\
    ring_wf x' /\
    runnext x' = (if next then gp else runnext x) /\
    p_status x' = p_status x /\ p_m x' = p_m x /\
    s' = set_grunq (grunq s') (runqsize s') s /\
    (runnext x' = gp \/ In gp (ring_list x') \/ In gp (grunq s')).
Proof.
  intros Hwf Hlock.
  assert (forall y g0, ring_wf y ->
    exists y' s', runqput_retry' (S fuel) y s g0 = Ok (y', s') /\
      ring_wf y' /\ runnext y' = runnext y /\
      p_status y' = p_status y /\ p_m y' = p_m y /\
      s' = set_grunq (grunq s') (runqsize s') s /\
      (In g0 (ring_list y') \/ In g0 (grunq s'))) as Hretry.
  { intros y g0 Hy.
    destruct (Z.lt_ge_cases (ring_len y) 256) as [Hroom | Hfull].
    - rewrite runqput_retry_room by done.
      destruct (ring_list_push y g0 Hy Hroom) as [_ Hlist].
      eexists _, _. split; [done|]. split; [by apply ring_wf_push|].
      do 3 (split; [done|]). split; [by destruct s|].
      left. rewrite Hlist. apply in_or_app. right. by left.
    - assert (ring_len y = 256) as Heq.
      { destruct Hy as (_ & _ & _ & Hle). unfold ring_len in *. lia. }
      rewrite runqput_retry_full by done.
      eexists _, _. split; [done|]. split; [by apply ring_wf_overflow|].
      do 3 (split; [done|]). split; [destruct s; simpl in *; by subst|].
      right. unfold globrunqputbatch. cbn [grunq set_lock_held set_grunq].
      apply in_or_app. right. apply in_or_app. right. by left. }
  unfold runqput, randomizeScheduler. cbn [andb].
  destruct next.
  - rewrite runqput_next_ok. cbn [mbind result_bind].
    destruct (Z.eqb_spec (runnext x) 0) as [Hz | Hnz].
    + eexists _, _. split; [done|]. split; [done|].
      do 3 (split; [done|]). split; [by destruct s | by left].
    + destruct (Hretry (set_runnext gp x) (runnext x) Hwf)
        as (x' & s' & Hrun & Hwf' & Hnext' & Hst & Hm & Hs' & _).
      exists x', s'. split; [exact Hrun|]. split; [done|].
      do 3 (split; [done|]). split; [done | by left].
  - destruct (Hretry x gp Hwf) as (x' & s' & Hrun & Hwf' & Hnext' & Hst & Hm & Hs' & Hin).
    exists x', s'. split; [exact Hrun|]. split; [done|].
    do 4 (split; [done|]). by right.
Qed.

End RunQueueFacts.

(** ** The [next] slot is popped first (claim C8) *)

(** C8, as stated, at a concrete input in a build with the race detector,
    where [randomizeScheduler = raceenabled] is true.  On a fresh P task 7
    is pushed with [next = false] and then task 8 with [next = true], the
    draw of [fastrand] being even.  [runqput] then clears [next] and puts
    task 8 on the ring as well, so the [runnext] slot stays empty although
    the last task pushed with [next = true] is 8; [runqget] returns the ring
    element 7, and without inherited time slice, while task 8 waits behind
    it on the ring. *)
Lemma runqget_race_build_takes_ring_first :
  exists x' s' x2,
    run_ops true 0 (fun _ => 0) 1 [Push 7 false; Push 8 true] p_fresh sched_fresh
      = Ok (x', s') /\
    last_favored [Push 7 false; Push 8 true] (runnext p_fresh) = 8 /\
    runnext x' = 0 /\
    ring_list x' = [7; 8] /\
    runqget 1 x' = Ok (7, false, x2) /\
    runqget 1 x' <> Ok (8, true, set_runnext 0 x') /\
    ring_list x2 = [8].
Proof.
  eexists _, _, _. split; [vm_compute; reflexivity|].
  split; [reflexivity|]. split; [reflexivity|]. split; [reflexivity|].
  split; [vm_compute; reflexivity|]. split; [|reflexivity].
  vm_compute. discriminate.
Qed.

(** C8, amended: in a build without the race detector, where
    [randomizeScheduler = raceenabled] is false.  After any single-threaded
    sequence of pushes and pops on one P (well-formed ring, scheduler lock
    free), the sequence has run to its end and the [runnext] slot holds the
    last task pushed with [next = true] and not popped since.  If there is
    such a task, [runqget] returns it with [inheritTime = true] and leaves
    head, tail and slots of the ring as they were, whatever the ring holds;
    if there is none, [runqget] takes from the ring (the slot at the head,
    or nil when the ring is empty) and returns [inheritTime = false]. *)
Theorem runqget_takes_runnext_first (fastrand : Z) (fastrandn : Z -> Z)
    (fuel : nat) (ops : list qop) (x : p) (s : schedt) :
  ring_wf x -> lock_held s = false ->
  exists x' s',
    run_ops false fastrand fastrandn (S fuel) ops x s = Ok (x', s') /\
    runnext x' = last_favored ops (runnext x) /\
    (last_favored ops (runnext x) <> 0 ->
       runqget (S fuel) x' =
         Ok (last_favored ops (runnext x), true, set_runnext 0 x')) /\
    (last_favored ops (runnext x) = 0 ->
       runqget (S fuel) x' =
         if runqtail x' =? runqhead x' then Ok (0, false, x')
         else Ok (slot (runq x') (runqhead x'), false,
                  set_runqhead (uint32 (runqhead x' + 1)) x')).
Proof.
  intros Hwf Hlock.
  destruct (run_ops_runnext fastrand fastrandn fuel ops x s Hwf Hlock)
    as (x' & s' & Hrun & Hwf' & Hlock' & Hnext).
  exists x', s'. split; [exact Hrun|]. split; [exact Hnext|]. split.
  - intros Hnz. rewrite <- Hnext in *. by apply runqget_next_slot.
  - intros Hz. rewrite <- Hnext in Hz.
    destruct (Z.eqb_spec (runqtail x') (runqhead x')) as [He | Hne].
    + by apply runqget_ring_empty.
    + by apply runqget_ring_head.
Qed.

Lemma runqget_takes_runnext_first_witness :
  ring_wf p_fresh /\ lock_held sched_fresh = false /\
  exists x' s',
    run_ops false 0 (fun _ => 0) 1 [Push 7 false; Push 8 true; Push 9 false]
      p_fresh sched_fresh = Ok (x', s') /\
    runnext x' = 8 /\
    (8 <> 0 -> runqget 1 x' = Ok (8, true, set_runnext 0 x')) /\
    (8 = 0 ->
       runqget 1 x' =
         if runqtail x' =? runqhead x' then Ok (0, false, x')
         else Ok (slot (runq x') (runqhead x'), false,
                  set_runqhead (uint32 (runqhead x' + 1)) x')).
Proof.
  assert (ring_wf p_fresh) as Hwf.
  { unfold ring_wf. repeat split; vm_compute; congruence. }
  split; [exact Hwf|]. split; [reflexivity|].
  exact (runqget_takes_runnext_first 0 (fun _ => 0) 0
           [Push 7 false; Push 8 true; Push 9 false] p_fresh sched_fresh
           Hwf eq_refl).
Defined.

(** ** Overflow of the local ring (claim C9) *)


(** The same push in a build with the race detector, the draw of
    [fastrand] being even (and [fastrandn] returning 0): [runqput] clears
    [next], so the pushed task 400 itself goes to the overflow path and the
    [runnext] slot keeps task 300; the chain of 129 is shuffled, here with
    task 400 at its head.  Which task joins the chain, and in which order
    the chain is linked, thus depends on the build. *)
Lemma runqput_overflow_race_build :
  let x := set_runnext 300 p_full in
  exists x' s',
    runqput true 0 (fun _ => 0) 1 x sched_fresh 400 true = Ok (x', s') /\
    runnext x' = 300 /\
    grunq s' = 400 :: ring_slice (runq x) (runqhead x) 128 /\
    ~ In 300 (grunq s').
Proof.
  eexists _, _. split; [vm_compute; reflexivity|].
  split; [reflexivity|]. split; [reflexivity|].
  vm_compute. intuition discriminate.
Qed.



(** ** Batches from the global run queue (claim C5) *)

(** C5, as stated, at a concrete input.  With one context and three queued
    tasks the stated batch size is 3/1 + 1 = 4, more than the queue holds;
    the code caps the batch at the queue size as well and takes 3 tasks:
    task 11 is returned, tasks 12 and 13 go to the local ring. *)
Lemma globrunqget_single_context :
  let s := set_lock_held true (set_grunq [11; 12; 13] 3 sched_fresh) in
  batch_size_stated 3 1 0 = 4 /\
  globrunqget_n 3 1 0 = 3 /\
  exists x' s',
    globrunqget false 0 (fun _ => 0) 1 1 p_fresh s 0 = Ok (11, x', s') /\
    ring_list x' = [12; 13] /\ grunq s' = [] /\
    runqsize s' = 0 /\ runqsize s' <> runqsize s - batch_size_stated 3 1 0.
Proof.
  split; [reflexivity|]. split; [reflexivity|].
  eexists _, _. split; [vm_compute; reflexivity|].
  repeat split; try reflexivity. vm_compute. discriminate.
Qed.

(** C5, amended.  A pop from a non-empty global queue of [size] tasks
    (the counter equal to the length of the chain, below the [int32]
    maximum) by a P whose ring is well formed and has room computes
    [n = min (size / gomaxprocs + 1) size], capped at [max] when [max] is
    positive and at 128.  It removes the first [n] tasks of the global queue,
    returns the first of them, appends the other [n - 1] to the tasks on the
    local ring in the same order, and decreases the counter by [n]; [runnext]
    and the ring's head stay as they were. *)
Theorem globrunqget_batch (fastrand : Z) (fastrandn : Z -> Z) (fuel : nat)
    (gomaxprocs : Z) (x : p) (s : schedt) (max : Z) :
  0 < gomaxprocs ->
  runqsize s = Z.of_nat (length (grunq s)) ->
  0 < runqsize s < 2147483647 ->
  ring_wf x ->
  let n := Z.min (Z.min (runqsize s / gomaxprocs + 1) (runqsize s))
                 (Z.min (if max >? 0 then max else 128) 128) in
  ring_len x + (n - 1) <= 256 ->
  exists gp moved x',
    globrunqget false fastrand fastrandn (S fuel) gomaxprocs x s max =
      Ok (gp, x', set_grunq (drop (Z.to_nat n) (grunq s)) (runqsize s - n) s) /\
    1 <= n <= 128 /\
    take (Z.to_nat n) (grunq s) = gp :: moved /\
    length moved = Z.to_nat (n - 1) /\
    ring_list x' = ring_list x ++ moved /\
    ring_len x' = ring_len x + (n - 1) /\
    runnext x' = runnext x /\ runqhead x' = runqhead x.
Proof.
  intros Hp Hsize Hpos Hwf n Hroom.
  destruct (globrunqget_n_bounds (runqsize s) gomaxprocs max Hpos Hp)
    as (Hn & Hn1 & Hn2).
  fold n in Hn. rewrite Hn in Hn1, Hn2.
  destruct (grunq s) as [| gp rest] eqn:Hq; [simpl in Hsize; lia|].
  simpl length in Hsize.
  destruct (globrunqget_loop_ok fastrand fastrandn fuel (Z.to_nat (n - 1)) x
              (set_grunq rest (int32 (runqsize s - n))
                 (set_grunq (grunq s) (int32 (runqsize s - n)) s)) Hwf)
    as (x' & Hrun & Hwf' & Hlist & Hlen & Hnext & Hhead).
  { lia. }
  { simpl. lia. }
  exists gp, (take (Z.to_nat (n - 1)) rest), x'.
  split.
  { unfold globrunqget.
    destruct (Z.eqb_spec (runqsize s) 0); [lia|].
    destruct (Z.eqb_spec gomaxprocs 0); [lia|].
    rewrite Hn. cbn [grunq set_grunq]. rewrite Hq.
    replace (int32 (n - 1)) with (n - 1) by u32.
    cbn [runqsize set_grunq]. rewrite Hq in Hrun. rewrite Hrun.
    cbn [mbind result_bind]. do 2 f_equal.
    replace (int32 (runqsize s - n)) with (runqsize s - n) by u32.
    replace (Z.to_nat n) with (S (Z.to_nat (n - 1))) by lia.
    by rewrite !set_grunq_twice. }
  split; [lia|]. split.
  { replace (Z.to_nat n) with (S (Z.to_nat (n - 1))) by lia. done. }
  split.
  { rewrite length_take. lia. }
  split; [exact Hlist|]. split; [lia | done].
Qed.

Lemma globrunqget_batch_witness :
  let s := set_lock_held true (set_grunq [11; 12; 13; 14; 15] 5 sched_fresh) in
  0 < 2 /\ runqsize s = Z.of_nat (length (grunq s)) /\
  0 < runqsize s < 2147483647 /\ ring_wf p_fresh /\
  ring_len p_fresh + (3 - 1) <= 256 /\
  exists gp moved x',
    globrunqget false 0 (fun _ => 0) 1 2 p_fresh s 0 =
      Ok (gp, x', set_grunq (drop (Z.to_nat 3) (grunq s)) (runqsize s - 3) s) /\
    1 <= 3 <= 128 /\
    take (Z.to_nat 3) (grunq s) = gp :: moved /\
    length moved = Z.to_nat (3 - 1) /\
    ring_list x' = ring_list p_fresh ++ moved /\
    ring_len x' = ring_len p_fresh + (3 - 1) /\
    runnext x' = runnext p_fresh /\ runqhead x' = runqhead p_fresh.
Proof.
  intros s.
  assert (ring_wf p_fresh) as Hwf.
  { unfold ring_wf. repeat split; vm_compute; congruence. }
  assert (0 < runqsize s < 2147483647) as Hpos by (vm_compute; split; reflexivity).
  assert (ring_len p_fresh + (3 - 1) <= 256) as Hroom by (vm_compute; congruence).
  split; [lia|]. split; [reflexivity|]. split; [exact Hpos|].
  split; [exact Hwf|]. split; [exact Hroom|].
  exact (globrunqget_batch 0 (fun _ => 0) 0 2 p_fresh s 0
           eq_refl eq_refl Hpos Hwf Hroom).
Defined.

(** ** Stealing half of a ring (claim C4) *)

(** The copy loop of [runqgrab] between two distinct arrays. *)
Fixpoint copy_slots (src dst : list Z) (h bh : Z) (i cnt : nat) : list Z :=
  match cnt with
  | O => dst
  | S cnt' =>
      copy_slots src
        (slot_set dst (uint32 (bh + Z.of_nat i)) (slot src (uint32 (h + Z.of_nat i))))
        h bh (S i) cnt'
  end.

Lemma set_runq_id x : set_runq (runq x) x = x.
Proof. by destruct x. Qed.

Lemma grab_copy_distinct v b h bh cnt : forall ps i,
  v <> b ->
  grab_copy ps v b h bh i cnt =
    alter (fun x => set_runq (copy_slots (runq (ps !!! v)) (runq x) h bh i cnt) x) b ps.
Proof.
  induction cnt as [| cnt IH]; intros ps i Hne; simpl.
  - symmetry. apply list_alter_id. intros x. apply set_runq_id.
  - rewrite IH by done. rewrite list_lookup_total_alter_ne by done.
    rewrite list_alter_alter_eq. by apply list_alter_ext.
Qed.

Lemma copy_slots_length src h bh cnt : forall dst i,
  length (copy_slots src dst h bh i cnt) = length dst.
Proof.
  induction cnt as [| cnt IH]; intros dst i; simpl; [done|].
  by rewrite IH, slot_set_length.
Qed.

(** Slots that the loop does not write keep their value. *)
Lemma copy_slots_other src h bh z cnt : forall dst i,
  (forall j : nat, (i <= j < i + cnt)%nat ->
     uint32 (bh + Z.of_nat j) mod 256 <> z mod 256) ->
  slot (copy_slots src dst h bh i cnt) z = slot dst z.
Proof.
  induction cnt as [| cnt IH]; intros dst i Hz; simpl; [done|].
  rewrite IH by (intros j Hj; apply Hz; lia).
  apply slot_set_ne, Hz. lia.
Qed.

Lemma ring_index_distinct bh (j1 j2 : nat) :
  (j1 < j2 < j1 + 256)%nat ->
  uint32 (bh + Z.of_nat j2) mod 256 <> uint32 (bh + Z.of_nat j1) mod 256.
Proof.
  intros Hj.
  assert (0 < Z.of_nat j2 - Z.of_nat j1 < 256) as Hd by lia.
  revert Hd. generalize (Z.of_nat j1) (Z.of_nat j2). clear Hj. intros a c Hd.
  u32.
Qed.

(** Slots that the loop writes hold the victim's tasks. *)
Lemma copy_slots_copied src h bh cnt : forall dst i (j : nat),
  length dst = 256%nat -> (cnt <= 256)%nat -> (i <= j < i + cnt)%nat ->
  slot (copy_slots src dst h bh i cnt) (uint32 (bh + Z.of_nat j)) =
    slot src (uint32 (h + Z.of_nat j)).
Proof.
  induction cnt as [| cnt IH]; intros dst i j Hl Hc Hj; simpl; [lia|].
  destruct (decide (j = i)) as [-> | Hne].
  - rewrite copy_slots_other.
    + by apply slot_set_eq.
    + intros j' Hj'. apply ring_index_distinct. lia.
  - apply IH; [by rewrite slot_set_length | lia | lia].
Qed.

Lemma ring_slice_snoc q h (m : nat) :
  ring_slice q h (S m) = ring_slice q h m ++ [slot q (uint32 (h + Z.of_nat m))].
Proof.
  replace (S m) with (m + 1)%nat by lia. rewrite ring_slice_app.
  f_equal. unfold ring_slice. simpl. by rewrite uint32_add_l, Z.add_0_r.
Qed.

Lemma take_ring_list x (m : nat) :
  (m <= Z.to_nat (ring_len x))%nat ->
  take m (ring_list x) = ring_slice (runq x) (runqhead x) m.
Proof.
  intros Hm. unfold ring_list.
  replace (Z.to_nat (ring_len x)) with (m + (Z.to_nat (ring_len x) - m))%nat by lia.
  rewrite ring_slice_app, take_app_length'; [done|]. by rewrite ring_slice_length.
Qed.

Lemma drop_ring_list x (m : nat) :
  (m <= Z.to_nat (ring_len x))%nat ->
  drop m (ring_list x) =
    ring_slice (runq x) (uint32 (runqhead x + Z.of_nat m)) (Z.to_nat (ring_len x) - m).
Proof.
  intros Hm. unfold ring_list.
  replace (Z.to_nat (ring_len x)) with (m + (Z.to_nat (ring_len x) - m))%nat at 1 by lia.
  rewrite ring_slice_app, drop_app_length'; [done|]. by rewrite ring_slice_length.
Qed.

(** A pass whose snapshot is the victim's actual head and tail, with
    [0 < k <= 256] tasks between them: [k - k/2] slots are copied and the
    CAS moves the victim's head past them. *)
Lemma runqgrab_step_consistent ps v b bh steal :
  v <> b ->
  ring_wf (ps !!! v) -> 0 < ring_len (ps !!! v) ->
  let victim := ps !!! v in
  let n := ring_len victim - ring_len victim / 2 in
  runqgrab_step (runqhead victim) (runqtail victim) ps v b bh steal =
    GrabDone n
      (alter (set_runqhead (uint32 (runqhead victim + n))) v
         (alter (fun x => set_runq (copy_slots (runq victim) (runq x)
                                      (runqhead victim) bh 0 (Z.to_nat n)) x) b ps)).
Proof.
  intros Hne (Hl & Hh & Ht & Hle) Hk victim n.
  unfold runqgrab_step. fold victim. fold (ring_len victim).
  fold victim in Hle, Hk. fold (ring_len victim) in Hle.
  assert (uint32 (ring_len victim - ring_len victim / 2) = n /\ 0 < n <= 128)
    as [-> Hn].
  { unfold n. revert Hle Hk. generalize (ring_len victim). clear. intros k ? ?.
    split; u32. }
  destruct (Z.eqb_spec n 0); [lia|]. unfold runq_len.
  destruct (Z.gtb_spec n (256 / 2)); [change (256 / 2) with 128 in *; lia|].
  rewrite grab_copy_distinct by done. fold victim.
  rewrite list_lookup_total_alter_ne by done. fold victim.
  by rewrite cas_same.
Qed.

(** A pass whose snapshot gives a count above half the ring is retried. *)
Lemma runqgrab_step_inconsistent h t ps v b bh steal :
  uint32 (t - h) - uint32 (t - h) / 2 > 128 ->
  runqgrab_step h t ps v b bh steal = GrabRetry ps.
Proof.
  intros Hn. unfold runqgrab_step.
  pose proof (uint32_range (t - h)) as Hr.
  assert (uint32 (uint32 (t - h) - uint32 (t - h) / 2) =
          uint32 (t - h) - uint32 (t - h) / 2) as ->.
  { revert Hn Hr. generalize (uint32 (t - h)). clear. intros k ? ?. u32. }
  destruct (Z.eqb_spec (uint32 (t - h) - uint32 (t - h) / 2) 0); [lia|].
  unfold runq_len. change (256 / 2) with 128.
  destruct (Z.gtb_spec (uint32 (t - h) - uint32 (t - h) / 2) 128); [done | lia].
Qed.

Lemma list_alter_same {A} (f : A -> A) (l : list A) (i : nat) :
  (forall x, l !! i = Some x -> f x = x) -> alter f i l = l.
Proof.
  intros Hf. rewrite <- (list_alter_id id l i) at 2 by done.
  by apply list_alter_ext.
Qed.

Lemma set_runqtail_id x : set_runqtail (runqtail x) x = x.
Proof. by destruct x. Qed.

(** C4.  A steal by the P at index [self] from a different P at index [v]
    whose ring holds [k > 0] tasks (both rings well formed, the thief with
    room for the tasks it keeps) returns and takes [n = k - k/2], which is
    [k/2] rounded up, tasks from the victim's head: they are copied into the
    thief's slots from its tail on, the last of them is returned to the
    caller and the others are appended to the thief's queue; the victim
    keeps the remaining [k/2] tasks and both [runnext] slots are untouched.
    A pass of [runqgrab] whose snapshot gives a count above half the ring
    capacity is retried. *)
Theorem runqsteal_half (fuel : nat) (ps : list p) (self v : nat)
    (stealRunNextG : bool) :
  self <> v -> (self < length ps)%nat -> (v < length ps)%nat ->
  ring_wf (ps !!! self) -> ring_wf (ps !!! v) ->
  0 < ring_len (ps !!! v) ->
  let k := ring_len (ps !!! v) in
  let n := k - k / 2 in
  ring_len (ps !!! self) + (n - 1) < 256 ->
  exists gp moved ps',
    runqsteal (S fuel) ps self v stealRunNextG = Ok (gp, ps') /\
    n = (k + 1) / 2 /\
    take (Z.to_nat n) (ring_list (ps !!! v)) = moved ++ [gp] /\
    ring_slice (runq (ps' !!! self)) (runqtail (ps !!! self)) (Z.to_nat n)
      = moved ++ [gp] /\
    ring_list (ps' !!! self) = ring_list (ps !!! self) ++ moved /\
    ring_list (ps' !!! v) = drop (Z.to_nat n) (ring_list (ps !!! v)) /\
    ring_len (ps' !!! v) = k / 2 /\
    runnext (ps' !!! v) = runnext (ps !!! v) /\
    runnext (ps' !!! self) = runnext (ps !!! self) /\
    (forall i, i <> self -> i <> v -> ps' !! i = ps !! i) /\
    (forall h t ps0 v0 b0 bh st,
       uint32 (t - h) - uint32 (t - h) / 2 > 128 ->
       runqgrab_step h t ps0 v0 b0 bh st = GrabRetry ps0).
Proof.
  intros Hne Hself Hv Hwft Hwfv Hk k n Hroom.
  set (thief := ps !!! self) in *. set (victim := ps !!! v) in *.
  set (h := runqhead victim). set (t := runqtail thief).
  pose proof (ring_len_range thief) as Hlt.
  assert (0 < n <= 128 /\ n <= k /\ k - n = k / 2 /\ n = (k + 1) / 2 /\ k <= 256)
    as (Hn & Hnk & Hrest & Hceil & Hk256).
  { destruct Hwfv as (_ & _ & _ & Hle). fold (ring_len victim) in Hle. fold k in Hle.
    unfold n. revert Hk Hle. fold k. generalize k. clear. intros k ? ?.
    repeat split; u32. }
  set (Q := copy_slots (runq victim) (runq thief) h t 0 (Z.to_nat n)).
  set (ps1 := alter (fun x => set_runq (copy_slots (runq victim) (runq x) h t 0
                                 (Z.to_nat n)) x) self ps).
  set (ps2 := alter (set_runqhead (uint32 (h + n))) v ps1).
  set (ps' := alter (set_runqtail (uint32 (t + (n - 1)))) self ps2).
  assert (runqgrab (S fuel) ps v self t stealRunNextG = Ok (n, ps2)) as Hgrab.
  { cbn [runqgrab].
    pose proof (runqgrab_step_consistent ps v self t stealRunNextG) as Hstep.
    cbv zeta in Hstep. by rewrite Hstep. }
  assert (ps2 !!! self = set_runq Q thief) as Hs2.
  { unfold ps2, ps1. rewrite list_lookup_total_alter_ne by done.
    by rewrite list_lookup_total_alter_eq. }
  assert (ps2 !!! v = set_runqhead (uint32 (h + n)) victim) as Hv2.
  { unfold ps2. rewrite list_lookup_total_alter_eq
      by (unfold ps1; by rewrite length_alter).
    unfold ps1. by rewrite list_lookup_total_alter_ne. }
  assert (ps' !!! self = set_runqtail (uint32 (t + (n - 1))) (set_runq Q thief))
    as Hs'.
  { unfold ps'. rewrite list_lookup_total_alter_eq
      by (unfold ps2, ps1; by rewrite !length_alter).
    by rewrite Hs2. }
  assert (ps' !!! v = set_runqhead (uint32 (h + n)) victim) as Hv'.
  { unfold ps'. by rewrite list_lookup_total_alter_ne. }
  destruct Hwft as (Hlq & Hth & Htt & Htle).
  destruct Hwfv as (Hvq & Hvh & Hvt & Hvle).
  fold t in Htt. fold h in Hvh.
  assert (forall j : nat, (j < Z.to_nat n)%nat ->
            slot Q (uint32 (t + Z.of_nat j)) = slot (runq victim) (uint32 (h + Z.of_nat j)))
    as Hcopied.
  { intros j Hj. unfold Q. apply copy_slots_copied; [done | lia | lia]. }
  assert (ring_slice Q t (Z.to_nat n) = ring_slice (runq victim) h (Z.to_nat n))
    as Hslice.
  { unfold ring_slice. apply map_ext_in. intros j Hj%in_seq. apply Hcopied. lia. }
  set (moved := ring_slice (runq victim) h (Z.to_nat (n - 1))).
  set (gp := slot (runq victim) (uint32 (h + (n - 1)))).
  assert (ring_slice (runq victim) h (Z.to_nat n) = moved ++ [gp]) as Hsplit.
  { replace (Z.to_nat n) with (S (Z.to_nat (n - 1))) by lia.
    rewrite ring_slice_snoc. unfold moved, gp. by rewrite Z2Nat.id by lia. }
  exists gp, moved, ps'.
  split.
  { unfold runqsteal. fold thief. fold t. rewrite Hgrab. cbn [mbind result_bind].
    destruct (Z.eqb_spec n 0); [lia|].
    replace (uint32 (n - 1)) with (n - 1) by (clear -Hn; u32).
    rewrite Hs2. cbn [runq runqhead set_runq].
    replace (slot Q (uint32 (t + (n - 1)))) with gp.
    2:{ unfold gp. rewrite <- (Z2Nat.id (n - 1)) by lia. symmetry.
        apply Hcopied. lia. }
    destruct (Z.eqb_spec (n - 1) 0) as [Hz | Hnz].
    - do 2 f_equal. unfold ps'. symmetry. apply list_alter_same.
      intros x Hx. rewrite Hz, Z.add_0_r, uint32_id by done.
      assert (x = ps2 !!! self) as -> by (by apply list_lookup_total_correct in Hx).
      rewrite Hs2. apply (set_runqtail_id (set_runq Q thief)).
    - change (uint32 (t - runqhead thief)) with (ring_len thief).
      replace (uint32 (ring_len thief + (n - 1))) with (ring_len thief + (n - 1))
        by (clear -Hn Hlt Hroom; u32).
      unfold runq_len. destruct (Z.geb_spec (ring_len thief + (n - 1)) 256); [lia|].
      done. }
  split; [exact Hceil|].
  split.
  { rewrite take_ring_list by (fold victim k; lia). done. }
  split.
  { rewrite Hs'. cbn [runq set_runqtail set_runq]. fold t. by rewrite Hslice. }
  split.
  { rewrite Hs'. unfold ring_list.
    assert (ring_len (set_runqtail (uint32 (t + (n - 1))) (set_runq Q thief))
            = ring_len thief + (n - 1)) as ->.
    { unfold ring_len. cbn [runqhead runqtail set_runqtail set_runq]. fold t.
      fold (ring_len thief). unfold ring_len in Hlt, Hroom. fold t in Hlt, Hroom.
      revert Hlt Hroom. unfold ring_len. fold t.
      generalize (runqhead thief) Hth. clear -Hn Htt. intros a ? ? ?. u32. }
    cbn [runq runqhead set_runqtail set_runq].
    replace (Z.to_nat (ring_len thief + (n - 1)))
      with (Z.to_nat (ring_len thief) + Z.to_nat (n - 1))%nat by lia.
    rewrite ring_slice_app. f_equal.
    - apply ring_slice_ext. intros i Hi. unfold Q. apply copy_slots_other.
      intros j Hj.
      assert (0 <= Z.of_nat i < ring_len thief) as Hi' by lia.
      assert (0 <= Z.of_nat j < n) as Hj' by lia.
      revert Hi' Hj' Hroom Hlt. unfold ring_len. fold t.
      generalize (Z.of_nat i) (Z.of_nat j) (runqhead thief) Hth.
      clear -Hn Htt. intros a c e ? ? ? ? ?. u32.
    - replace (uint32 (runqhead thief + Z.of_nat (Z.to_nat (ring_len thief))))
        with t.
      2:{ rewrite Z2Nat.id by lia. unfold ring_len in *. fold t in Hlt |- *.
          revert Hlt. generalize (runqhead thief) Hth. clear -Htt.
          intros a ? ?. u32. }
      unfold moved, ring_slice. apply map_ext_in. intros j Hj%in_seq.
      apply Hcopied. lia. }
  split.
  { rewrite Hv'. unfold ring_list at 1.
    assert (ring_len (set_runqhead (uint32 (h + n)) victim) = k / 2) as ->.
    { unfold ring_len. cbn [runqhead runqtail set_runqhead]. fold h.
      rewrite <- Hrest. unfold k, ring_len. fold h.
      revert Hk Hk256 Hn Hnk. unfold k, ring_len. fold h.
      generalize (runqtail victim) Hvt n. clear -Hvh. intros a ? m ? ? ? ?. u32. }
    cbn [runq runqhead set_runqhead].
    rewrite drop_ring_list by (fold victim k; lia).
    fold victim h k. rewrite Z2Nat.id by lia. f_equal. lia. }
  split.
  { rewrite Hv'. unfold ring_len. cbn [runqhead runqtail set_runqhead]. fold h.
    rewrite <- Hrest. unfold k, ring_len. fold h.
    revert Hk Hk256 Hn Hnk. unfold k, ring_len. fold h.
    generalize (runqtail victim) Hvt n. clear -Hvh. intros a ? m ? ? ? ?. u32. }
  split; [by rewrite Hv'|]. split; [by rewrite Hs'|].
  split.
  { intros i Hi1 Hi2. unfold ps', ps2, ps1.
    by rewrite !list_lookup_alter_ne. }
  intros. by apply runqgrab_step_inconsistent.
Qed.

Lemma runqsteal_half_witness :
  let ps := [p_fresh; p_five] in
  0%nat <> 1%nat /\ (0 < length ps)%nat /\ (1 < length ps)%nat /\
  ring_wf (ps !!! 0%nat) /\ ring_wf (ps !!! 1%nat) /\
  0 < ring_len (ps !!! 1%nat) /\
  ring_len (ps !!! 0%nat) + (3 - 1) < 256 /\
  exists gp moved ps',
    runqsteal 1 ps 0 1 false = Ok (gp, ps') /\
    3 = (5 + 1) / 2 /\
    take (Z.to_nat 3) (ring_list (ps !!! 1%nat)) = moved ++ [gp] /\
    ring_slice (runq (ps' !!! 0%nat)) (runqtail (ps !!! 0%nat)) (Z.to_nat 3)
      = moved ++ [gp] /\
    ring_list (ps' !!! 0%nat) = ring_list (ps !!! 0%nat) ++ moved /\
    ring_list (ps' !!! 1%nat) = drop (Z.to_nat 3) (ring_list (ps !!! 1%nat)) /\
    ring_len (ps' !!! 1%nat) = 5 / 2 /\
    runnext (ps' !!! 1%nat) = runnext (ps !!! 1%nat) /\
    runnext (ps' !!! 0%nat) = runnext (ps !!! 0%nat) /\
    (forall i, i <> 0%nat -> i <> 1%nat -> ps' !! i = ps !! i) /\
    (forall h t ps0 v0 b0 bh st,
       uint32 (t - h) - uint32 (t - h) / 2 > 128 ->
       runqgrab_step h t ps0 v0 b0 bh st = GrabRetry ps0).
Proof.
  intros ps.
  assert (ring_wf (ps !!! 0%nat)) as Hwf0.
  { unfold ring_wf. repeat split; vm_compute; congruence. }
  assert (ring_wf (ps !!! 1%nat)) as Hwf1.
  { unfold ring_wf. repeat split; vm_compute; congruence. }
  assert (0%nat <> 1%nat) as Hne by discriminate.
  assert (0 < length ps)%nat as Hl0 by (simpl; lia).
  assert (1 < length ps)%nat as Hl1 by (simpl; lia).
  split; [exact Hne|]. split; [exact Hl0|]. split; [exact Hl1|].
  split; [exact Hwf0|]. split; [exact Hwf1|].
  split; [reflexivity|]. split; [reflexivity|].
  exact (runqsteal_half 0 ps 0 1 false Hne Hl0 Hl1 Hwf0 Hwf1 eq_refl eq_refl).
Defined.
